(** * npc_radiomics: repeated cross-validated grid search and its plot

    A shallow embedding of [src/npc_radiomics/cv_grid_search.py].

    The script is glue code: every computation of substance happens inside
    scikit-learn, pandas, matplotlib and the logger.  What the script itself
    decides is which names it looks up, which library operations it issues,
    with which arguments and in which order, and what happens to the
    exceptions these operations raise.  The embedding therefore keeps

    - Python values as a term algebra ([value]), objects returned by a library
      being opaque;
    - the module namespace as a finite map from names to values, which
      starts with the attributes every module holds and is filled by the
      import statements in source order;
    - the libraries, the import system among them, as an oracle ([respond])
      that answers each operation, given the history of the earlier ones, by
      a value or by an exception;
    - the function body as a program in a state-and-exception monad whose
      state is the namespace and the log of library operations. *)

From stdpp Require Import gmap strings list.
From Stdlib Require Import ZArith.

Local Open Scope string_scope.
Local Open Scope Z_scope.
Local Open Scope list_scope.

(** ** Python values *)

#[warnings="-register-all"]
Inductive value : Type :=
| VNone
| VBool (b : bool)
| VInt (n : Z)
| VFloat (mantissa exponent : Z)     (* the decimal literal mantissa * 10^exponent *)
| VStr (s : string)
| VTuple (items : list value)
| VList (items : list value)
| VDict (entries : list (value * value))
| VModule (name : string)            (* [import name] *)
| VMember (module name : string)     (* [from module import name] *)
| VBuiltin (name : string)
| VRange (stop : Z)                  (* the result of the builtin [range(stop)] *)
| VFunction (name : string)          (* a function defined by this module *)
| VObj (id : nat).                   (* an object made by a library *)

(** ** Library operations, and the log of them *)

Inductive op : Type :=
| GetAttr (obj : value) (attr : string)
| GetItem (obj key : value)
| Call (callee : value) (args : list value) (kwargs : list (string * value))
| Unpack (obj : value) (n : nat)
| Iterate (obj : value)
| Import (module : string) (name : option string).
    (* [import module], [from module import name], [from module import *] *)

(** An operation is answered by an exception object ([inl]) or by a value
    ([inr]). *)
Definition response : Type := value + value.
Definition event : Type := op * response.

Definition returned (ev : event) : bool :=
  match ev.2 with inr _ => true | inl _ => false end.

Definition reads_attr (a : string) (ev : event) : bool :=
  match ev.1 with
  | GetAttr _ a' => String.eqb a a'
  | _ => false
  end.

(** The world outside the script: what the two wildcard imports bind, the
    names of the builtins, and the behaviour of the libraries. *)
Record World : Type := {
  star_exports : string -> list string;
  builtins : list string;
  respond : list event -> op -> response
}.

(** ** Exceptions, state and the monad *)

Inductive exn : Type :=
| NameError (name : string)   (* a name is bound nowhere *)
| TypeError (msg : string)    (* the arguments of a call do not fit the signature *)
| Raised (e : value).         (* raised while an operation was performed *)

Record State : Type := {
  globals : gmap string value;
  log : list event              (* oldest event first *)
}.

Definition M (A : Type) : Type := State -> State * (exn + A).

#[export] Instance M_ret : MRet M := fun A a st => (st, inr a).

#[export] Instance M_bind : MBind M := fun A B k m st =>
  match m st with
  | (st', inl e) => (st', inl e)
  | (st', inr a) => k a st'
  end.

Definition raise {A} (e : exn) : M A := fun st => (st, inl e).

Definition store_name (n : string) (v : value) : M unit := fun st =>
  ({| globals := <[n := v]> (globals st); log := log st |}, inr ()).

Definition record_event (st : State) (ev : event) : State :=
  {| globals := globals st; log := log st ++ [ev] |}.

(** ** What the interpreter answers itself *)

Definition range_items (stop : Z) : list value :=
  (λ i : nat, VInt (Z.of_nat i)) <$> seq 0 (Z.to_nat stop).

(** [range] takes no keyword and one to three arguments.  With one
    argument it counts up to an integer; an object of a library is asked
    for its index, which is the library's business, and so are the forms
    with a start or a step, which the script does not use. *)
Definition builtin_range (args : list value) (kwargs : list (string * value))
    : option response :=
  match kwargs, args with
  | [], [VInt n] => Some (inr (VRange n))
  | [], [VBool b] => Some (inr (VRange (if b then 1 else 0)))
  | [], [VObj _] | [], [VMember _ _] => None
  | [], [_; _] | [], [_; _; _] => None
  | _, _ => Some (inl (VStr "TypeError: range"))
  end.

(** The builtin [range], and iterating or unpacking a range, a list or a
    tuple, are the interpreter's; every other operation is a library's. *)
Definition native (o : op) : option response :=
  match o with
  | Call (VBuiltin "range") args kwargs => builtin_range args kwargs
  | Iterate (VRange stop) => Some (inr (VList (range_items stop)))
  | Iterate (VList items) | Iterate (VTuple items)
  | Unpack (VList items) _ | Unpack (VTuple items) _ => Some (inr (VList items))
  | _ => None
  end.

(** Iterating and unpacking yield finitely many items or raise. *)
Definition as_sequence (r : response) : value + list value :=
  match r with
  | inr (VList items) | inr (VTuple items) => inr items
  | inr _ => inl (VStr "TypeError: not iterable")
  | inl e => inl e
  end.

Section Script.

Context (w : World).

(** Name lookup outside the function's locals: module namespace first, then
    the builtins. *)
Definition lookup_name (g : gmap string value) (n : string) : option value :=
  match g !! n with
  | Some v => Some v
  | None => if bool_decide (n ∈ builtins w) then Some (VBuiltin n) else None
  end.

Definition load_name (n : string) : M value := fun st =>
  match lookup_name (globals st) n with
  | Some v => (st, inr v)
  | None => (st, inl (NameError n))
  end.

(** The answer to an operation; the libraries see the log so far. *)
Definition answer (history : list event) (o : op) : response :=
  match native o with
  | Some r => r
  | None => respond w history o
  end.

Definition lib (o : op) : M value := fun st =>
  match answer (log st) o with
  | inl e => (record_event st (o, inl e), inl (Raised e))
  | inr v => (record_event st (o, inr v), inr v)
  end.

Definition getattr (obj : value) (attr : string) : M value := lib (GetAttr obj attr).
Definition getitem (obj key : value) : M value := lib (GetItem obj key).
Definition call (f : value) (args : list value) (kwargs : list (string * value)) : M value :=
  lib (Call f args kwargs).

(** [a, b = v] *)
Definition unpack2 (v : value) : M (value * value) := fun st =>
  let o := Unpack v 2 in
  match as_sequence (answer (log st) o) with
  | inr [a; b] => (record_event st (o, inr (VTuple [a; b])), inr (a, b))
  | inr _ =>
      let e := VStr "ValueError: unpack" in
      (record_event st (o, inl e), inl (Raised e))
  | inl e => (record_event st (o, inl e), inl (Raised e))
  end.

(** The items a [for] statement runs over. *)
Definition iterate (v : value) : M (list value) := fun st =>
  let o := Iterate v in
  match as_sequence (answer (log st) o) with
  | inr items => (record_event st (o, inr (VList items)), inr items)
  | inl e => (record_event st (o, inl e), inl (Raised e))
  end.

Fixpoint for_each (items : list value) (body : value -> M unit) : M unit :=
  match items with
  | [] => mret ()
  | i :: rest => body i ;; for_each rest body
  end.

(** ** The module's top level: lines 1 to 6 and the [def] *)

(** An import statement is an operation: it can raise, and it binds
    nothing then. *)
Definition bind_exports (m : string) : M unit := fun st =>
  ({| globals := foldl (λ g n, <[n := VMember m n]> g) (globals st) (star_exports w m);
      log := log st |}, inr ()).

(** [from m import *] binds every name the module exports. *)
Definition import_star (m : string) : M unit :=
  lib (Import m (Some "*")) ;; bind_exports m.

Definition import_as (m alias : string) : M unit :=
  lib (Import m None) ;; store_name alias (VModule m).

Definition from_import (m n : string) : M unit :=
  lib (Import m (Some n)) ;; store_name n (VMember m n).

Definition module_top : M unit :=
  import_star "sklearn" ;;
  import_star "sklearn.model_selection" ;;
  import_as "numpy" "np" ;;
  import_as "matplotlib.pyplot" "plt" ;;
  from_import "mnts.mnts_logger" "MNTSLogger" ;;
  import_as "pandas" "pd" ;;
  store_name "plot_performance_vs_hyperparams" (VFunction "plot_performance_vs_hyperparams").

(** ** The function's parameters: lines 8 to 13 *)

Record Params : Type := {
  clf : value;
  param_grid : value;
  features : value;
  targets : value;
  n_split : value;
  n_fold : value
}.

Definition param_names : list string :=
  ["clf"; "param_grid"; "features"; "targets"; "n_split"; "n_fold"].

Definition param_defaults : list (string * value) :=
  [("n_split", VInt 7); ("n_fold", VInt 15)].

Definition assoc (n : string) (kvs : list (string * value)) : option value :=
  snd <$> find (λ kv, String.eqb n kv.1) kvs.

(** The argument a call supplies for the parameter at position [i] named [n]:
    positional first, then keyword, then the default. *)
Definition arg_for (pos : list value) (kw : list (string * value))
    (i : nat) (n : string) : exn + value :=
  match pos !! i, assoc n kw with
  | Some _, Some _ => inl (TypeError "multiple values for argument")
  | Some v, None => inr v
  | None, Some v => inr v
  | None, None =>
      match assoc n param_defaults with
      | Some v => inr v
      | None => inl (TypeError "missing required argument")
      end
  end.

(** The position of a parameter in the signature. *)
Fixpoint position (n : string) (names : list string) : option nat :=
  match names with
  | [] => None
  | n' :: rest => if String.eqb n n' then Some 0%nat else S <$> position n rest
  end.

(** The keywords are looked at first, in the order they are written: one
    that names no parameter, or a parameter a positional argument has
    filled, ends the call. *)
Fixpoint keyword_error (pos : list value) (kw : list (string * value)) : option exn :=
  match kw with
  | [] => None
  | (k, _) :: rest =>
      match position k param_names with
      | None => Some (TypeError "unexpected keyword argument")
      | Some i =>
          if bool_decide (i < length pos)%nat
          then Some (TypeError "multiple values for argument")
          else keyword_error pos rest
      end
  end.

Definition bind_params (pos : list value) (kw : list (string * value)) : exn + Params :=
  let arg n := arg_for pos kw (default 0%nat (position n param_names)) n in
  match keyword_error pos kw with
  | Some e => inl e
  | None =>
      if bool_decide (length param_names < length pos)%nat then
        inl (TypeError "too many positional arguments")
      else
        match arg "clf", arg "param_grid", arg "features", arg "targets",
              arg "n_split", arg "n_fold" with
        | inr a, inr b, inr c, inr d, inr e, inr f =>
            inr {| clf := a; param_grid := b; features := c; targets := d;
                   n_split := e; n_fold := f |}
        | inl x, _, _, _, _, _ | _, inl x, _, _, _, _ | _, _, inl x, _, _, _
        | _, _, _, inl x, _, _ | _, _, _, _, inl x, _ | _, _, _, _, _, inl x => inl x
        end
  end.

(** ** The function body: lines 14 to 37 *)

(** The names the body assigns; Python makes exactly these (and the
    parameters) local, every other name is looked up with [load_name]. *)
Definition assigned_names : list string :=
  ["splitter"; "logger"; "df_cvres"; "i"; "split"; "grid"; "X"; "cvres"; "fig"; "ax"].

(** Lines 18 to 23, one repetition. *)
Definition repetition (p : Params) (splitter : value) (i : value) : M unit :=
  (* split = splitter.split(features.columns,
                            targets.loc[features.columns][targets.columns[0]]) *)
  split_m ← getattr splitter "split";
  samples ← getattr (features p) "columns";
  loc ← getattr (targets p) "loc";
  cols ← getattr (features p) "columns";
  rows ← getitem loc cols;
  tcols ← getattr (targets p) "columns";
  tcol0 ← getitem tcols (VInt 0);
  labels ← getitem rows tcol0;
  split ← call split_m [samples; labels] [];
  (* grid = GridSearchCV(clf, n_jobs=5, param_grid=param_grid,
                         scoring='roc_auc', cv=split) *)
  gs ← load_name "GridSearchCV";
  grid ← call gs [clf p]
           [("n_jobs", VInt 5); ("param_grid", param_grid p);
            ("scoring", VStr "roc_auc"); ("cv", split)];
  (* X = grid.fit(features.T.to_numpy(),
                  targets.loc[features.columns].to_numpy().ravel()) *)
  fit ← getattr grid "fit";
  ft ← getattr (features p) "T";
  ft_np ← getattr ft "to_numpy";
  xs ← call ft_np [] [];
  loc' ← getattr (targets p) "loc";
  cols' ← getattr (features p) "columns";
  rows' ← getitem loc' cols';
  rows_np ← getattr rows' "to_numpy";
  ys2 ← call rows_np [] [];
  ravel ← getattr ys2 "ravel";
  ys ← call ravel [] [];
  X ← call fit [xs; ys] [];
  (* cvres = pd.DataFrame(grid.cv_results_) *)
  pd ← load_name "pd";
  data_frame ← getattr pd "DataFrame";
  cv_results ← getattr grid "cv_results_";
  cvres ← call data_frame [cv_results] [];
  (* df_curves.append(cvres) *)
  df_curves ← load_name "df_curves";
  append ← getattr df_curves "append";
  _ ← call append [cvres] [];
  mret ().

(** Lines 25 and 26. *)
Definition aggregator (df_cvres : value) : M value :=
  (* df_cvres = pd.concat(df_cvres) *)
  pd ← load_name "pd";
  concat ← getattr pd "concat";
  df_cvres ← call concat [df_cvres] [];
  (* df_cvres = df_cvres.reset_index() *)
  reset_index ← getattr df_cvres "reset_index";
  call reset_index [] [].

(** One [sns.lineplot(data=..., x=..., y=..., hue=..., ax=ax[k])]. *)
Definition lineplot (df_cvres ax : value) (x hue : string) (k : Z) : M value :=
  sns ← load_name "sns";
  lp ← getattr sns "lineplot";
  axk ← getitem ax (VInt k);
  call lp []
    [("data", df_cvres); ("x", VStr x); ("y", VStr "mean_test_score");
     ("hue", VStr hue); ("ax", axk)].

(** Lines 27 to 37. *)
Definition visualizer (df_cvres : value) : M value :=
  (* fig, ax = plt.subplots(1, 2, figsize=(10, 5), sharey=True) *)
  plt ← load_name "plt";
  subplots ← getattr plt "subplots";
  r ← call subplots [VInt 1; VInt 2]
        [("figsize", VTuple [VInt 10; VInt 5]); ("sharey", VBool true)];
  '(fig, ax) ← unpack2 r;
  _ ← lineplot df_cvres ax "param_classification__alpha" "param_classification__l1_ratio" 0;
  _ ← lineplot df_cvres ax "param_classification__l1_ratio" "param_classification__alpha" 1;
  mret VNone.

Definition plot_performance_vs_hyperparams (p : Params) : M value :=
  (* splitter = StratifiedKFold(n_splits=n_split, shuffle=True) *)
  skf ← load_name "StratifiedKFold";
  splitter ← call skf [] [("n_splits", n_split p); ("shuffle", VBool true)];
  (* logger = MNTSLogger['cv_grid_search_plot'] *)
  mnts ← load_name "MNTSLogger";
  logger ← getitem mnts (VStr "cv_grid_search_plot");
  (* df_cvres = [] *)
  let df_cvres := VList [] in
  (* for i in range(n_fold): *)
  range ← load_name "range";
  r ← call range [n_fold p] [];
  items ← iterate r;
  for_each items (repetition p splitter) ;;
  df_cvres ← aggregator df_cvres;
  visualizer df_cvres.

(** A call of the function: bind the arguments, then run the body. *)
Definition invoke (pos : list value) (kw : list (string * value)) : M value :=
  match bind_params pos kw with
  | inl e => raise e
  | inr p => plot_performance_vs_hyperparams p
  end.

(** ** The [__main__] block: lines 39 to 53 *)

Definition elastic_net_grid (estimator : value) : value :=
  VDict
    [(VStr "classification", VList [estimator]);
     (VStr "classification__alpha",
      VList [VFloat 2 (-2); VFloat 4 (-2); VFloat 6 (-2); VFloat 8 (-2); VFloat 1 (-1)]);
     (VStr "classification__l1_ratio",
      VList [VFloat 0 (-1); VFloat 2 (-1); VFloat 4 (-1); VFloat 6 (-1); VFloat 8 (-1);
             VFloat 10 (-1)])].

Definition main_setup : M unit :=
  (* clf = pipeline.Pipeline([('standardization', preprocessing.StandardScaler()),
                              ('classification', 'passthrough')]) *)
  pipeline ← load_name "pipeline";
  pipeline_cls ← getattr pipeline "Pipeline";
  preprocessing ← load_name "preprocessing";
  scaler_cls ← getattr preprocessing "StandardScaler";
  scaler ← call scaler_cls [] [];
  clf ← call pipeline_cls
          [VList [VTuple [VStr "standardization"; scaler];
                  VTuple [VStr "classification"; VStr "passthrough"]]] [];
  store_name "clf" clf ;;
  (* param_grid_dict = {'Elastic Net': {...}} *)
  linear_model ← load_name "linear_model";
  elastic_net_cls ← getattr linear_model "ElasticNet";
  estimator ← call elastic_net_cls [] [("tol", VFloat 1 (-4)); ("max_iter", VInt 5500)];
  store_name "param_grid_dict" (VDict [(VStr "Elastic Net", elastic_net_grid estimator)]).

(** The positional arguments of line 53. *)
Definition main_call_args : M (list value) :=
  a ← load_name "clf";
  b ← load_name "param_grid_dict";
  mret [a; b].

Definition main : M value :=
  main_setup ;;
  (* plot_performance_vs_hyperparams(clf, param_grid_dict) *)
  f ← load_name "plot_performance_vs_hyperparams";
  args ← main_call_args;
  match f with
  | VFunction "plot_performance_vs_hyperparams" => invoke args []
  | _ => call f args []
  end.

(** Line 39.  A module's [__name__] is a string; an object of another kind
    does not equal ['__main__']. *)
Definition run_as_main (name : value) : bool :=
  match name with
  | VStr s => String.eqb s "__main__"
  | _ => false
  end.

(** Running the file, as a script or by an import. *)
Definition script : M value :=
  module_top ;;
  name ← load_name "__name__";
  if run_as_main name then main else mret VNone.

End Script.

(** ** The namespace of the module *)

(** The names every module holds before its first statement runs. *)
Definition module_attributes : list string :=
  ["__name__"; "__doc__"; "__package__"; "__loader__"; "__spec__"; "__file__";
   "__cached__"; "__builtins__"].

(** Their values: the name the file runs under, no docstring, and objects of
    the import system. *)
Definition module_attribute (name a : string) : value :=
  if String.eqb a "__name__" then VStr name
  else if String.eqb a "__doc__" then VNone
  else VMember name a.

Definition fresh_module (name : string) : gmap string value :=
  foldl (λ g a, <[a := module_attribute name a]> g) ∅ module_attributes.

(** The state in which the first line of the file runs. *)
Definition started (name : string) : State :=
  {| globals := fresh_module name; log := [] |}.

Definition module_name : string := "npc_radiomics.cv_grid_search".

(** The same world with imports that succeed. *)
Definition import_succeeds (w : World) : World :=
  {| star_exports := star_exports w;
     builtins := builtins w;
     respond := λ history o,
       match o with
       | Import m _ => inr (VModule m)
       | _ => respond w history o
       end |}.

(** The namespace the function sees when the module has been imported. *)
Definition module_namespace (w : World) : gmap string value :=
  globals (module_top (import_succeeds w) (started module_name)).1.

Definition resolve (w : World) (n : string) : option value :=
  lookup_name w (module_namespace w) n.

(** ** Two concrete worlds *)

(** The export lists of scikit-learn's two packages, the builtins the script
    can meet, and libraries that answer every operation with a new object. *)
Definition sklearn_exports (m : string) : list string :=
  if String.eqb m "sklearn" then
    ["calibration"; "cluster"; "covariance"; "cross_decomposition"; "datasets";
     "decomposition"; "dummy"; "ensemble"; "exceptions"; "experimental"; "externals";
     "feature_extraction"; "feature_selection"; "gaussian_process"; "inspection";
     "isotonic"; "kernel_approximation"; "kernel_ridge"; "linear_model"; "manifold";
     "metrics"; "mixture"; "model_selection"; "multiclass"; "multioutput";
     "naive_bayes"; "neighbors"; "neural_network"; "pipeline"; "preprocessing";
     "random_projection"; "semi_supervised"; "svm"; "tree"; "discriminant_analysis";
     "impute"; "compose"; "clone"; "get_config"; "set_config"; "config_context";
     "show_versions"]
  else if String.eqb m "sklearn.model_selection" then
    ["BaseCrossValidator"; "BaseShuffleSplit"; "GridSearchCV"; "TimeSeriesSplit";
     "KFold"; "GroupKFold"; "GroupShuffleSplit"; "LeaveOneGroupOut"; "LeaveOneOut";
     "LeavePGroupsOut"; "LeavePOut"; "RepeatedKFold"; "RepeatedStratifiedKFold";
     "ParameterGrid"; "ParameterSampler"; "PredefinedSplit"; "RandomizedSearchCV";
     "ShuffleSplit"; "StratifiedKFold"; "StratifiedGroupKFold";
     "StratifiedShuffleSplit"; "check_cv"; "cross_val_predict"; "cross_val_score";
     "cross_validate"; "learning_curve"; "permutation_test_score";
     "train_test_split"; "validation_curve"]
  else [].

Definition python_builtins : list string :=
  ["abs"; "all"; "any"; "bool"; "dict"; "enumerate"; "float"; "int"; "len"; "list";
   "map"; "max"; "min"; "print"; "range"; "set"; "sorted"; "str"; "sum"; "tuple";
   "zip"].

Definition fresh_object (history : list event) (o : op) : response :=
  match o with
  | Unpack _ n => inr (VTuple ((λ i, VObj (length history + i)) <$> seq 0 n))
  | Iterate _ => inr (VList [])
  | _ => inr (VObj (length history))
  end.

Definition obliging_world : World :=
  {| star_exports := sklearn_exports; builtins := python_builtins; respond := fresh_object |}.

(** The same, but [StratifiedKFold] rejects [n_splits=1] as scikit-learn's
    does. *)
Definition rejected_split : value :=
  VStr "ValueError: k-fold cross-validation requires at least one train/test split".

Definition one_split_call : op :=
  Call (VMember "sklearn.model_selection" "StratifiedKFold") []
    [("n_splits", VInt 1); ("shuffle", VBool true)].

Definition strict_splitter (history : list event) (o : op) : response :=
  match o with
  | Call (VMember "sklearn.model_selection" "StratifiedKFold") [] (("n_splits", VInt 1) :: _) =>
      inl rejected_split
  | _ => fresh_object history o
  end.

Definition strict_world : World :=
  {| star_exports := sklearn_exports; builtins := python_builtins; respond := strict_splitter |}.

Definition imported (w : World) : State :=
  {| globals := module_namespace w; log := [] |}.

Definition scenario_grid : value :=
  VDict [(VStr "alpha", VList [VFloat 2 (-2); VFloat 1 (-1)]);
         (VStr "l1_ratio", VList [VFloat 0 (-1); VFloat 10 (-1)])].

Definition scenario (repetitions : Z) : Params :=
  {| clf := VObj 1000; param_grid := scenario_grid; features := VObj 1001;
     targets := VObj 1002; n_split := VInt 7; n_fold := VInt repetitions |}.


(** ** Reading a run *)

(** The names bound at the top level other than by a wildcard import. *)
Definition named_bindings : list string :=
  ["np"; "plt"; "MNTSLogger"; "pd"; "plot_performance_vs_hyperparams"].

(** The first operation that raises is the last one of the run, and its
    exception is the outcome; conversely an outcome [Raised x] comes from
    the last operation. *)
Fixpoint propagated {A} (evs : list event) (r : exn + A) : Prop :=
  match evs with
  | [] => ∀ x, r ≠ inl (Raised x)
  | (_, inl x) :: rest => rest = [] ∧ r = inl (Raised x)
  | (_, inr _) :: rest => propagated rest r
  end.

Definition outcome_in {A} (E : exn -> Prop) (V : A -> Prop) (r : exn + A) : Prop :=
  match r with
  | inr a => V a
  | inl (Raised _) => True
  | inl e => E e
  end.

(** [spec G ok E V m]: run in the namespace [G] from any log, [m] leaves the
    namespace alone and appends events that all satisfy [ok]; an exception
    of an operation is propagated; a returned value satisfies [V], and an
    exception the interpreter raises satisfies [E]. *)
Definition spec (G : gmap string value) (ok : event -> bool) (E : exn -> Prop)
    {A} (V : A -> Prop) (m : M A) : Prop :=
  ∀ lg, ∃ evs r,
    m {| globals := G; log := lg |} = ({| globals := G; log := lg ++ evs |}, r)
    ∧ forallb ok evs = true ∧ propagated evs r ∧ outcome_in E V r.

Definition any_event (ev : event) : bool := true.
Definition no_read (a : string) (ev : event) : bool := negb (reads_attr a ev).
Definition reads (a : string) (evs : list event) : nat :=
  length (filter (λ ev, reads_attr a ev = true) evs).

Definition untouched (attrs : list string) (ev : event) : bool :=
  forallb (λ a, no_read a ev) attrs.

(** How a run that cannot return ends: either every operation returned and
    the interpreter found [name] unbound, or the last operation raised. *)
Definition stops_with (name : string) (evs : list event) (e : exn) : Prop :=
  (e = NameError name ∧ forallb returned evs = true)
  ∨ (∃ (pre : list event) o x, evs = pre ++ [(o, inl x)] ∧ e = Raised x).

(** The wildcard imports provide the two classes the function uses and
    leave the builtin [range] alone. *)
Definition wildcards_as_expected (w : World) : Prop :=
  resolve w "range" = Some (VBuiltin "range")
  ∧ is_Some (resolve w "StratifiedKFold") ∧ is_Some (resolve w "GridSearchCV").

(** The positional arguments of the calls made right after the attribute
    [a] was read. *)
Fixpoint arguments_to (a : string) (evs : list event) : list (list value) :=
  match evs with
  | [] => []
  | ev :: rest =>
      match rest with
      | (Call _ args _, _) :: _ =>
          if reads_attr a ev then args :: arguments_to a rest else arguments_to a rest
      | _ => arguments_to a rest
      end
  end.

(** A hyperparameter grid in the sense of the data model: a dictionary from
    parameter names to lists of candidates; its number of combinations. *)
Definition candidates (entry : value * value) : option nat :=
  match entry with
  | (VStr _, VList cs) | (VStr _, VTuple cs) => Some (length cs)
  | _ => None
  end.

Fixpoint product_of (entries : list (value * value)) : option nat :=
  match entries with
  | [] => Some 1%nat
  | entry :: rest =>
      match candidates entry, product_of rest with
      | Some n, Some m => Some (n * m)%nat
      | _, _ => None
      end
  end.

Definition grid_combinations (grid : value) : option nat :=
  match grid with
  | VDict entries => product_of entries
  | _ => None
  end.


(** No wildcard export and no builtin goes by the name [n]. *)
Definition foreign (w : World) (n : string) : Prop :=
  (n ∉ star_exports w "sklearn") ∧ (n ∉ star_exports w "sklearn.model_selection")
  ∧ (n ∉ builtins w).

(** ** Further reading of runs *)

(** The objects the top level binds by name, lines 3 to 8. *)
Definition named_objects : list (string * value) :=
  [("np", VModule "numpy"); ("plt", VModule "matplotlib.pyplot");
   ("MNTSLogger", VMember "mnts.mnts_logger" "MNTSLogger"); ("pd", VModule "pandas");
   ("plot_performance_vs_hyperparams", VFunction "plot_performance_vs_hyperparams")].

(** The outcome and final state of a run satisfy [Q]. *)
Definition wp {A} (m : M A) (Q : State -> exn + A -> Prop) (st : State) : Prop :=
  Q (m st).1 (m st).2.


(** The operations of lines 1 to 6, in source order. *)
Definition import_ops : list op :=
  [Import "sklearn" (Some "*"); Import "sklearn.model_selection" (Some "*");
   Import "numpy" None; Import "matplotlib.pyplot" None;
   Import "mnts.mnts_logger" (Some "MNTSLogger"); Import "pandas" None].

(** How the file run as a script ends: at the call of line 53, which lacks
    two arguments, after the six imports and the six operations of the
    [__main__] block; or earlier, at a submodule the wildcard import did
    not provide, or at an operation, an import among them, that raised. *)
Definition script_stop (evs : list event) (e : exn) : Prop :=
  (e = TypeError "missing required argument" ∧ length evs = 12%nat
   ∧ forallb returned evs = true)
  ∨ (∃ n, e = NameError n ∧ n ∈ ["pipeline"; "preprocessing"; "linear_model"]
          ∧ (6 <= length evs < 12)%nat ∧ forallb returned evs = true)
  ∨ (∃ o x, e = Raised x ∧ last evs = Some (o, inl x) ∧ (length evs <= 12)%nat).

(** How a call whose loop has no item runs: unless line 14 or line 15
    raises, [range] and the loop over it return, no repetition runs, and
    the next operation is the aggregator's lookup of [pd.concat]. *)
Definition loop_skipped (skf mnts pdv : value) (p : Params) (n : Z)
    (evs : list event) (r : exn + value) : Prop :=
  let splitter_call := Call skf [] [("n_splits", n_split p); ("shuffle", VBool true)] in
  let logger_item := GetItem mnts (VStr "cv_grid_search_plot") in
  (∃ x, evs = [(splitter_call, inl x)] ∧ r = inl (Raised x))
  ∨ (∃ s x, evs = [(splitter_call, inr s); (logger_item, inl x)] ∧ r = inl (Raised x))
  ∨ (∃ s l resp rest,
       evs = (splitter_call, inr s) :: (logger_item, inr l)
             :: (Call (VBuiltin "range") [VInt n] [], inr (VRange n))
             :: (Iterate (VRange n), inr (VList []))
             :: (GetAttr pdv "concat", resp) :: rest).

(** [counts G a k V m]: run in the namespace [G] from any log, [m] leaves the
    namespace alone and appends events of which at most [k] read the
    attribute [a]; a returned value satisfies [V]. *)
Definition counts (G : gmap string value) (a : string) (k : nat)
    {A} (V : A -> Prop) (m : M A) : Prop :=
  ∀ lg, ∃ evs r,
    m {| globals := G; log := lg |} = ({| globals := G; log := lg ++ evs |}, r)
    ∧ (reads a evs <= k)%nat
    ∧ match r with inr x => V x | inl _ => True end.

(** [feeds G a args m]: likewise, and the attribute [a] is read and then
    called at most once, with the positional arguments [args]. *)
Definition feeds (G : gmap string value) (a : string) (args : list value)
    {A} (m : M A) : Prop :=
  ∀ lg, ∃ evs r,
    m {| globals := G; log := lg |} = ({| globals := G; log := lg ++ evs |}, r)
    ∧ (arguments_to a evs = [] ∨ arguments_to a evs = [args]).


(** The namespace of a caller who has imported seaborn under the name the
    plots expect. *)
Definition with_seaborn (st : State) : State :=
  {| globals := <["sns" := VModule "seaborn"]> (globals st); log := log st |}.

(** [tallies G a k V m]: run in the namespace [G] from any log, [m] leaves
    the namespace alone; when it returns, exactly [k] of the events it
    appended read the attribute [a], and the value satisfies [V]. *)
Definition tallies (G : gmap string value) (a : string) (k : nat)
    {A} (V : A -> Prop) (m : M A) : Prop :=
  ∀ lg, ∃ evs r,
    m {| globals := G; log := lg |} = ({| globals := G; log := lg ++ evs |}, r)
    ∧ match r with inr x => reads a evs = k ∧ V x | inl _ => True end.

(** The namespace of a caller who has also bound [df_curves] to a list of
    their own. *)
Definition with_df_curves (st : State) : State :=
  {| globals := <["df_curves" := VObj 2000]> (globals st); log := log st |}.

(** The reads, among some events, of the five attributes that mark the
    stages: [split], [fit] and [append] of a repetition, [concat] of the
    aggregator, [lineplot] of the visualizer. *)
Definition stage_attrs : list string := ["split"; "fit"; "append"; "concat"; "lineplot"].

Definition tally (evs : list event) : list nat := (λ a, reads a evs) <$> stage_attrs.

(** [tallied G ks m]: run in the namespace [G] from any log, [m] leaves the
    namespace alone; when it returns, the events it appended have the
    tally [ks]. *)
Definition tallied (G : gmap string value) (ks : list nat) {A} (m : M A) : Prop :=
  ∀ lg, ∃ evs r,
    m {| globals := G; log := lg |} = ({| globals := G; log := lg ++ evs |}, r)
    ∧ match r with inr _ => tally evs = ks | inl _ => True end.

(** The four operations of lines 25 and 26 when they all return:
    [pd.concat] is called with the empty list. *)
Definition aggregated (pdv concat df reset_index df' : value) : list event :=
  [(GetAttr pdv "concat", inr concat); (Call concat [VList []] [], inr df);
   (GetAttr df "reset_index", inr reset_index); (Call reset_index [] [], inr df')].

(** The events of a call that returned, stage after stage: those up to the
    end of the loop, with [n] reads each of [split], [fit] and [append];
    then the aggregator's; then the visualizer's, with two reads of
    [lineplot]. *)
Definition in_three_stages (n : nat) (evs : list event) : Prop :=
  ∃ loop vis pdv concat df reset_index df',
    evs = loop ++ aggregated pdv concat df reset_index df' ++ vis
    ∧ tally loop = [n; n; n; 0; 0]%nat
    ∧ tally vis = [0; 0; 0; 0; 2]%nat.

(** * Properties *)

(** ** The monad and the program logic *)

Lemma propagated_returned {A B} (evs1 evs2 : list event) (a : A) (r : exn + B) :
  propagated evs1 (inr a : exn + A) -> propagated evs2 r -> propagated (evs1 ++ evs2) r.
Proof.
  induction evs1 as [|[o [x|v]] evs1 IH]; simpl; intros H1 H2.
  - exact H2.
  - destruct H1 as [_ H1]. discriminate H1.
  - apply IH; assumption.
Qed.

Lemma propagated_raised {A B} (evs : list event) (e : exn) :
  propagated evs (inl e : exn + A) -> propagated evs (inl e : exn + B).
Proof.
  induction evs as [|[o [x|v]] evs IH]; simpl.
  - intros H x Hx. apply (H x). congruence.
  - intros [-> H]. split; [reflexivity | congruence].
  - exact IH.
Qed.

Lemma propagated_all_returned {A} (evs : list event) (r : exn + A) :
  propagated evs r -> (∀ x, r ≠ inl (Raised x)) -> forallb returned evs = true.
Proof.
  induction evs as [|[o [x|v]] evs IH]; simpl; intros H Hr.
  - reflexivity.
  - destruct H as [_ H]. destruct (Hr x H).
  - apply IH; assumption.
Qed.

Lemma propagated_split {A} (pre post : list event) (o : op) (x : value) (r : exn + A) :
  propagated (pre ++ (o, inl x) :: post) r -> post = [] ∧ r = inl (Raised x).
Proof.
  induction pre as [|[o' [y|v]] pre IH]; simpl.
  - tauto.
  - intros [H _]. destruct pre; discriminate H.
  - exact IH.
Qed.

Lemma propagated_last {A} (evs : list event) (x : value) (r : exn + A) :
  propagated evs r -> r = inl (Raised x) -> ∃ (pre : list event) o, evs = pre ++ [(o, inl x)].
Proof.
  induction evs as [|[o [y|v]] evs IH]; simpl; intros H Hr.
  - destruct (H x Hr).
  - destruct H as [-> H]. rewrite H in Hr. injection Hr as ->. exists [], o. reflexivity.
  - destruct (IH H Hr) as (pre & o' & ->). exists ((o, inr v) :: pre), o'. reflexivity.
Qed.

Section Logic.

Context (w : World) (G : gmap string value) (ok : event -> bool) (E : exn -> Prop).

Lemma spec_bind {A B} (V : A -> Prop) (V' : B -> Prop) (m : M A) (k : A -> M B) :
  spec G ok E V m -> (∀ a, V a -> spec G ok E V' (k a)) -> spec G ok E V' (m ≫= k).
Proof.
  intros Hm Hk lg. destruct (Hm lg) as (evs & r & Hrun & Hok & Hprop & Hout).
  unfold mbind, M_bind. rewrite Hrun. destruct r as [e|a].
  - exists evs, (inl e). split; [reflexivity|]. split; [exact Hok|].
    split; [eapply propagated_raised, Hprop | destruct e; exact Hout].
  - destruct (Hk a Hout (lg ++ evs)) as (evs' & r' & Hrun' & Hok' & Hprop' & Hout').
    exists (evs ++ evs'), r'. rewrite Hrun', app_assoc. split; [reflexivity|].
    split; [rewrite forallb_app, Hok, Hok'; reflexivity|].
    split; [eapply propagated_returned; eassumption | exact Hout'].
Qed.

Lemma spec_conseq {A} (V V' : A -> Prop) (m : M A) :
  spec G ok E V m -> (∀ a, V a -> V' a) -> spec G ok E V' m.
Proof.
  intros Hm HV lg. destruct (Hm lg) as (evs & r & Hrun & Hok & Hprop & Hout).
  exists evs, r. repeat split; try assumption. destruct r as [e|a]; [exact Hout | apply HV, Hout].
Qed.

Lemma spec_ret {A} (V : A -> Prop) (a : A) : V a -> spec G ok E V (mret a).
Proof.
  intros Ha lg. exists [], (inr a). rewrite app_nil_r. repeat split; [|exact Ha].
  intros x Hx. discriminate Hx.
Qed.

Lemma spec_raise_type {A} (V : A -> Prop) (msg : string) :
  E (TypeError msg) -> spec G ok E V (raise (TypeError msg)).
Proof.
  intros He lg. exists [], (inl (TypeError msg)). rewrite app_nil_r. repeat split; [|exact He].
  intros x Hx. discriminate Hx.
Qed.

Lemma spec_load (V : value -> Prop) (n : string) :
  match lookup_name w G n with Some v => V v | None => E (NameError n) end ->
  spec G ok E V (load_name w n).
Proof.
  intros H lg. unfold load_name. simpl. destruct (lookup_name w G n) as [v|].
  - exists [], (inr v). rewrite app_nil_r. repeat split; [|exact H]. intros x Hx. discriminate Hx.
  - exists [], (inl (NameError n)). rewrite app_nil_r. repeat split; [|exact H].
    intros x Hx. discriminate Hx.
Qed.

Lemma spec_lib (V : value -> Prop) (o : op) :
  (∀ r, ok (o, r) = true) -> (∀ lg v, answer w lg o = inr v -> V v) ->
  spec G ok E V (lib w o).
Proof.
  intros Hok HV lg. unfold lib. simpl. destruct (answer w lg o) as [x|v] eqn:Hans.
  - exists [(o, inl x)], (inl (Raised x)). simpl. rewrite Hok. repeat split.
  - exists [(o, inr v)], (inr v). simpl. rewrite Hok. repeat split.
    + intros x Hx. discriminate Hx.
    + eapply HV, Hans.
Qed.

Lemma spec_unpack2 (v : value) :
  (∀ r, ok (Unpack v 2, r) = true) -> spec G ok E (λ _, True) (unpack2 w v).
Proof.
  intros Hok lg. unfold unpack2. simpl.
  destruct (as_sequence (answer w lg (Unpack v 2))) as [x|[|a [|b [|c items]]]].
  1, 2, 3, 5: eexists [(_, inl _)], (inl (Raised _)); simpl; rewrite Hok; repeat split.
  exists [(Unpack v 2, inr (VTuple [a; b]))], (inr (a, b)). simpl. rewrite Hok. repeat split.
  intros x Hx. discriminate Hx.
Qed.

Lemma spec_iterate (V : list value -> Prop) (v : value) :
  (∀ r, ok (Iterate v, r) = true) ->
  (∀ lg items, as_sequence (answer w lg (Iterate v)) = inr items -> V items) ->
  spec G ok E V (iterate w v).
Proof.
  intros Hok HV lg. unfold iterate. simpl.
  destruct (as_sequence (answer w lg (Iterate v))) as [x|items] eqn:Hans.
  - exists [(Iterate v, inl x)], (inl (Raised x)). simpl. rewrite Hok. repeat split.
  - exists [(Iterate v, inr (VList items))], (inr items). simpl. rewrite Hok. repeat split.
    + intros x Hx. discriminate Hx.
    + eapply HV, Hans.
Qed.

Lemma spec_for_each (items : list value) (body : value -> M unit) :
  (∀ i, spec G ok E (λ _, True) (body i)) -> spec G ok E (λ _, True) (for_each items body).
Proof.
  intros Hbody. induction items as [|i items IH]; simpl.
  - apply spec_ret. exact I.
  - eapply spec_bind; [apply Hbody | intros _ _; exact IH].
Qed.

(** A loop whose body never returns stops in its first round. *)
Lemma spec_for_each_stuck {V : unit -> Prop} (i : value) (items : list value)
    (body : value -> M unit) :
  spec G ok E (λ _, False) (body i) -> spec G ok E V (for_each (i :: items) body).
Proof.
  intros Hbody. simpl. eapply spec_bind; [exact Hbody | intros _ []].
Qed.

End Logic.

(** ** The namespace *)

Lemma lookup_foldl_insert_notin (f : string -> value) (names : list string)
    (g : gmap string value) (n : string) :
  n ∉ names -> foldl (λ g n', <[n' := f n']> g) g names !! n = g !! n.
Proof.
  revert g. induction names as [|n' names IH]; intros g Hn; simpl.
  - reflexivity.
  - rewrite IH.
    + apply lookup_insert_ne. intros ->. apply Hn. left.
    + intros Hin. apply Hn. right. exact Hin.
Qed.

Lemma lookup_foldl_insert_in (f : string -> value) (names : list string)
    (g : gmap string value) (n : string) :
  n ∈ names -> foldl (λ g n', <[n' := f n']> g) g names !! n = Some (f n).
Proof.
  revert g. induction names as [|n' names IH]; intros g Hn; simpl.
  - inversion Hn.
  - destruct (decide (n ∈ names)) as [Hin|Hout].
    + apply IH, Hin.
    + rewrite lookup_foldl_insert_notin by exact Hout.
      inversion Hn; subst; [apply lookup_insert_eq | contradiction].
Qed.

Section Namespace.

Context (w : World).

Lemma module_namespace_unfold :
  module_namespace w =
  <["plot_performance_vs_hyperparams" := VFunction "plot_performance_vs_hyperparams"]>
    (<["pd" := VModule "pandas"]>
       (<["MNTSLogger" := VMember "mnts.mnts_logger" "MNTSLogger"]>
          (<["plt" := VModule "matplotlib.pyplot"]>
             (<["np" := VModule "numpy"]>
                (foldl (λ g n, <[n := VMember "sklearn.model_selection" n]> g)
                   (foldl (λ g n, <[n := VMember "sklearn" n]> g)
                      (fresh_module module_name) (star_exports w "sklearn"))
                   (star_exports w "sklearn.model_selection")))))).
Proof. reflexivity. Qed.

Lemma lookup_fresh_module (name n : string) :
  fresh_module name !! n
  = if decide (n ∈ module_attributes) then Some (module_attribute name n) else None.
Proof.
  unfold fresh_module. case_decide as Hn.
  - by apply lookup_foldl_insert_in.
  - by rewrite lookup_foldl_insert_notin.
Qed.

(** The only binders of a name the script does not bind itself are the
    wildcard imports and the builtins. *)
Lemma resolve_None (n : string) :
  n ∉ named_bindings -> n ∉ module_attributes -> foreign w n -> resolve w n = None.
Proof.
  intros Hn Hattr (H1 & H2 & H3). unfold resolve, lookup_name.
  rewrite module_namespace_unfold.
  rewrite !lookup_insert_ne by (intros <-; apply Hn; unfold named_bindings; set_solver).
  rewrite !lookup_foldl_insert_notin by assumption.
  rewrite lookup_fresh_module, decide_False by exact Hattr.
  rewrite bool_decide_eq_false_2 by exact H3. reflexivity.
Qed.

Lemma resolve_pd : resolve w "pd" = Some (VModule "pandas").
Proof.
  unfold resolve, lookup_name. rewrite module_namespace_unfold.
  rewrite lookup_insert_ne by discriminate. rewrite lookup_insert_eq. reflexivity.
Qed.

Lemma resolve_plt : resolve w "plt" = Some (VModule "matplotlib.pyplot").
Proof.
  unfold resolve, lookup_name. rewrite module_namespace_unfold.
  rewrite !lookup_insert_ne by discriminate. rewrite lookup_insert_eq. reflexivity.
Qed.

Lemma resolve_MNTSLogger :
  resolve w "MNTSLogger" = Some (VMember "mnts.mnts_logger" "MNTSLogger").
Proof.
  unfold resolve, lookup_name. rewrite module_namespace_unfold.
  rewrite !lookup_insert_ne by discriminate. rewrite lookup_insert_eq. reflexivity.
Qed.

End Namespace.

Lemma range_items_first (n : Z) : 1 <= n -> ∃ rest, range_items n = VInt 0 :: rest.
Proof.
  intros Hn. unfold range_items.
  destruct (Z.to_nat n) as [|k] eqn:Hk; [lia|].
  simpl. eexists. reflexivity.
Qed.

Lemma range_items_nonpositive (n : Z) : n <= 0 -> range_items n = [].
Proof.
  intros Hn. unfold range_items. replace (Z.to_nat n) with 0%nat by lia. reflexivity.
Qed.

Lemma is_Some_None_False {A} (x : option A) : is_Some x -> x = None -> False.
Proof. intros [a ->]. discriminate. Qed.

Lemma lookup_name_insert_ne (w : World) (g : gmap string value) (k n : string) (v : value) :
  k ≠ n -> lookup_name w (<[k := v]> g) n = lookup_name w g n.
Proof. intros Hne. unfold lookup_name. by rewrite lookup_insert_ne. Qed.

Lemma lookup_name_insert_eq (w : World) (g : gmap string value) (n : string) (v : value) :
  lookup_name w (<[n := v]> g) n = Some v.
Proof. unfold lookup_name. by rewrite lookup_insert_eq. Qed.

(** ** The stages of the function *)

Section Stages.

Context (w : World) (G : gmap string value).

Lemma spec_lib_any (ok : event -> bool) (E : exn -> Prop) (o : op) :
  (∀ r, ok (o, r) = true) -> spec G ok E (λ _, True) (lib w o).
Proof. intros Hok. apply spec_lib; [exact Hok | trivial]. Qed.

Lemma spec_load_any (ok : event -> bool) (E : exn -> Prop) (n : string) :
  (lookup_name w G n = None -> E (NameError n)) -> spec G ok E (λ _, True) (load_name w n).
Proof. intros H. apply spec_load. destruct (lookup_name w G n); [exact I | apply H; reflexivity]. Qed.

Lemma spec_load_unbound {V : value -> Prop} (ok : event -> bool) (E : exn -> Prop) (n : string) :
  lookup_name w G n = None -> E (NameError n) -> spec G ok E V (load_name w n).
Proof. intros Hn He. apply spec_load. rewrite Hn. exact He. Qed.

Lemma spec_iterate_any (ok : event -> bool) (E : exn -> Prop) (v : value) :
  (∀ r, ok (Iterate v, r) = true) -> spec G ok E (λ _, True) (iterate w v).
Proof. intros Hok. apply spec_iterate; [exact Hok | trivial]. Qed.

End Stages.

(** One step of a straight-line stage: an operation that any answer lets
    pass, or the lookup of a name that is bound or whose [NameError] is
    allowed. *)
Ltac spec_op :=
  first
    [ apply spec_lib_any; intros ?; reflexivity
    | apply spec_unpack2; intros ?; reflexivity
    | apply spec_iterate_any; intros ?; reflexivity
    | apply spec_load_any;
      first [ intros _; exact I
            | intros Hunbound; exfalso; eapply is_Some_None_False; [|exact Hunbound]; assumption ] ].

Ltac spec_steps :=
  repeat (eapply spec_bind; [ spec_op | intros ? _ ]).

Lemma arg_for_error (pos : list value) (kw : list (string * value)) (i : nat) (n : string)
    (e : exn) :
  arg_for pos kw i n = inl e -> ∃ msg, e = TypeError msg.
Proof.
  unfold arg_for. intros H. repeat case_match; simplify_eq; eauto.
Qed.

Lemma keyword_error_type (pos : list value) (kw : list (string * value)) (e : exn) :
  keyword_error pos kw = Some e -> ∃ msg, e = TypeError msg.
Proof.
  induction kw as [|[k v] kw IH]; simpl; [discriminate|].
  intros H. repeat case_match; simplify_eq; eauto.
Qed.

Lemma position_None (n : string) (names : list string) :
  n ∉ names -> position n names = None.
Proof.
  induction names as [|n' names IH]; simpl; [reflexivity|].
  intros Hn. destruct (String.eqb_spec n n') as [->|Hne].
  - exfalso. apply Hn. left.
  - rewrite IH; [reflexivity|]. intros Hin. apply Hn. right. exact Hin.
Qed.

(** A keyword that names no parameter is an error of the keywords. *)
Lemma stray_keyword_error (pos : list value) (kw : list (string * value))
    (k : string) (v : value) :
  (k, v) ∈ kw -> k ∉ param_names -> is_Some (keyword_error pos kw).
Proof.
  intros Hin Hk. induction kw as [|[k' v'] kw IH]; [inversion Hin|].
  cbn [keyword_error]. destruct (position k' param_names) as [i|] eqn:Hpos; [|eauto].
  destruct (bool_decide (i < length pos)%nat); [eauto|]. apply IH.
  apply elem_of_cons in Hin as [Heq|Hin]; [|exact Hin].
  simplify_eq. rewrite position_None in Hpos by exact Hk. discriminate.
Qed.

Lemma bind_params_error (pos : list value) (kw : list (string * value)) (e : exn) :
  bind_params pos kw = inl e -> ∃ msg, e = TypeError msg.
Proof.
  unfold bind_params. intros H.
  destruct (keyword_error pos kw) as [e'|] eqn:Hkw.
  { simplify_eq. eapply keyword_error_type, Hkw. }
  repeat case_match; simplify_eq; eauto using arg_for_error.
Qed.

Section Propagation.

Context (w : World) (G : gmap string value).

Local Abbreviation anything := (λ _, True).

Lemma repetition_propagates (p : Params) (splitter i : value) :
  spec G any_event anything anything (repetition w p splitter i).
Proof.
  unfold repetition, getattr, getitem, call. spec_steps. apply spec_ret. exact I.
Qed.

Lemma aggregator_propagates (df_cvres : value) :
  spec G any_event anything anything (aggregator w df_cvres).
Proof. unfold aggregator, getattr, call. spec_steps. spec_op. Qed.

Lemma lineplot_propagates (df_cvres ax : value) (x hue : string) (k : Z) :
  spec G any_event anything anything (lineplot w df_cvres ax x hue k).
Proof. unfold lineplot, getattr, getitem, call. spec_steps. spec_op. Qed.

Lemma visualizer_propagates (df_cvres : value) :
  spec G any_event anything anything (visualizer w df_cvres).
Proof.
  unfold visualizer, getattr, call.
  do 3 (eapply spec_bind; [spec_op | intros ? _]).
  eapply spec_bind; [spec_op | intros [fig ax] _].
  eapply spec_bind; [apply lineplot_propagates | intros ? _].
  eapply spec_bind; [apply lineplot_propagates | intros ? _].
  apply spec_ret. exact I.
Qed.

Lemma plot_propagates (p : Params) :
  spec G any_event anything anything (plot_performance_vs_hyperparams w p).
Proof.
  unfold plot_performance_vs_hyperparams, call. spec_steps.
  eapply spec_bind; [apply spec_for_each; intros i; apply repetition_propagates | intros ? _].
  eapply spec_bind; [apply aggregator_propagates | intros ? _].
  apply visualizer_propagates.
Qed.

Lemma invoke_propagates (pos : list value) (kw : list (string * value)) :
  spec G any_event anything anything (invoke w pos kw).
Proof.
  unfold invoke. destruct (bind_params pos kw) as [e|p] eqn:Hbind.
  - destruct (bind_params_error _ _ _ Hbind) as [msg ->].
    apply spec_raise_type. exact I.
  - apply plot_propagates.
Qed.

End Propagation.

(** [spec] read at one state. *)
Lemma spec_at {A} (G : gmap string value) (ok : event -> bool) (E : exn -> Prop)
    (V : A -> Prop) (m : M A) (st : State) :
  spec G ok E V m -> globals st = G ->
  ∃ evs r, m st = ({| globals := globals st; log := log st ++ evs |}, r)
    ∧ forallb ok evs = true ∧ propagated evs r ∧ outcome_in E V r.
Proof. intros Hm <-. destruct st as [g lg]. apply Hm. Qed.

Lemma spec_stops {A} (G : gmap string value) (ok : event -> bool) (name : string)
    (m : M A) (st : State) :
  spec G ok (λ e, e = NameError name) (λ _, False) m -> globals st = G ->
  ∃ evs e, m st = ({| globals := globals st; log := log st ++ evs |}, inl e)
    ∧ forallb ok evs = true ∧ stops_with name evs e.
Proof.
  intros Hm HG. destruct (spec_at _ _ _ _ _ _ Hm HG) as (evs & r & Hrun & Hok & Hprop & Hout).
  destruct r as [e|a]; [|destruct Hout].
  exists evs, e. split; [exact Hrun|]. split; [exact Hok|].
  destruct e as [n|msg|x]; simpl in Hout.
  - left. split; [exact Hout|]. eapply propagated_all_returned; [exact Hprop|]. discriminate.
  - discriminate Hout.
  - right. destruct (propagated_last _ _ _ Hprop eq_refl) as (pre & o & ->). eauto.
Qed.

Lemma untouched_reads (attrs : list string) (a : string) (evs : list event) :
  a ∈ attrs -> forallb (untouched attrs) evs = true -> reads a evs = 0%nat.
Proof.
  intros Ha. unfold reads. induction evs as [|ev evs IH]; simpl; [reflexivity|].
  intros [Hev Hevs]%andb_prop. unfold untouched in Hev.
  rewrite forallb_forall in Hev. specialize (Hev a). rewrite <- list_elem_of_In in Hev.
  specialize (Hev Ha). unfold no_read in Hev. apply negb_true_iff in Hev.
  rewrite filter_cons_False by (rewrite Hev; discriminate). apply IH, Hevs.
Qed.

Section Stops.

Context (w : World).

Local Abbreviation G := (module_namespace w).
Local Abbreviation idle :=
  (untouched ["append"; "concat"; "reset_index"; "subplots"; "lineplot"]).

(** With [df_curves] unbound a repetition never gets past line 23. *)
Lemma repetition_stops (p : Params) (splitter i : value) :
  resolve w "df_curves" = None -> is_Some (resolve w "GridSearchCV") ->
  spec G idle (λ e, e = NameError "df_curves") (λ _, False) (repetition w p splitter i).
Proof.
  intros Hdf Hgs. pose proof (resolve_pd w) as Hpd%mk_is_Some.
  unfold repetition, getattr, getitem, call. spec_steps.
  eapply spec_bind with (V := λ _, False); [|intros _ []].
  apply spec_load_unbound; [exact Hdf | reflexivity].
Qed.

Lemma plot_stops (p : Params) (n : Z) :
  resolve w "df_curves" = None -> wildcards_as_expected w ->
  n_fold p = VInt n -> 1 <= n ->
  spec G idle (λ e, e = NameError "df_curves") (λ _, False)
    (plot_performance_vs_hyperparams w p).
Proof.
  intros Hdf (Hrange & Hskf & Hgs) Hfold Hn.
  pose proof (resolve_MNTSLogger w) as Hmnts%mk_is_Some.
  unfold plot_performance_vs_hyperparams, call. rewrite Hfold.
  do 4 (eapply spec_bind; [spec_op | intros ? _]).
  eapply spec_bind with (V := λ v, v = VBuiltin "range").
  { apply spec_load. unfold resolve in Hrange. rewrite Hrange. reflexivity. }
  intros ? ->.
  eapply spec_bind with (V := λ v, v = VRange n).
  { apply spec_lib; [intros ?; reflexivity|]. intros lg v Hv. injection Hv as <-. reflexivity. }
  intros ? ->.
  eapply spec_bind with (V := λ items, items = range_items n).
  { apply spec_iterate; [intros ?; reflexivity|]. intros lg items Hi. injection Hi as <-. reflexivity. }
  intros ? ->. destruct (range_items_first n Hn) as [rest ->].
  eapply spec_bind with (V := λ _, False); [|intros _ []].
  apply spec_for_each_stuck, repetition_stops; assumption.
Qed.

End Stops.

Section NoChart.

Context (w : World) (G : gmap string value) (E : exn -> Prop).

Local Abbreviation unplotted := (untouched ["lineplot"]).

Hypothesis sns_unbound : lookup_name w G "sns" = None.
Hypothesis sns_error : E (NameError "sns").

Lemma lineplot_stops (df_cvres ax : value) (x hue : string) (k : Z) :
  spec G unplotted E (λ _, False) (lineplot w df_cvres ax x hue k).
Proof.
  unfold lineplot. eapply spec_bind with (V := λ _, False); [|intros _ []].
  apply spec_load_unbound; assumption.
Qed.

Lemma visualizer_stops (df_cvres : value) :
  (lookup_name w G "plt" = None -> E (NameError "plt")) ->
  spec G unplotted E (λ _, False) (visualizer w df_cvres).
Proof.
  intros Hplt. unfold visualizer, getattr, call.
  eapply spec_bind; [apply spec_load_any, Hplt | intros ? _].
  do 2 (eapply spec_bind; [spec_op | intros ? _]).
  eapply spec_bind; [spec_op | intros [fig ax] _].
  eapply spec_bind with (V := λ _, False); [|intros _ []].
  apply lineplot_stops.
Qed.

End NoChart.

Section NeverReturns.

Context (w : World) (G : gmap string value).

Local Abbreviation unplotted := (untouched ["lineplot"]).
Local Abbreviation anything := (λ _, True).

Hypothesis sns_unbound : lookup_name w G "sns" = None.

Lemma repetition_unplotted (p : Params) (splitter i : value) :
  spec G unplotted anything anything (repetition w p splitter i).
Proof.
  unfold repetition, getattr, getitem, call. spec_steps. apply spec_ret. exact I.
Qed.

Lemma aggregator_unplotted (df_cvres : value) :
  spec G unplotted anything anything (aggregator w df_cvres).
Proof. unfold aggregator, getattr, call. spec_steps. spec_op. Qed.

Lemma plot_never_returns (p : Params) :
  spec G unplotted anything (λ _, False) (plot_performance_vs_hyperparams w p).
Proof.
  unfold plot_performance_vs_hyperparams, call. spec_steps.
  eapply spec_bind; [apply spec_for_each; intros i; apply repetition_unplotted | intros ? _].
  eapply spec_bind; [apply aggregator_unplotted | intros ? _].
  apply visualizer_stops; trivial.
Qed.

End NeverReturns.

(** ** Running the monad backwards: what a normal return tells *)




(** ** Running a stage step by step *)

Lemma wp_bind {A B} (m : M A) (k : A -> M B) (Q : State -> exn + B -> Prop) (st : State) :
  wp m (λ st1 r1, match r1 with
                  | inl e => Q st1 (inl e)
                  | inr a => wp (k a) Q st1
                  end) st ->
  wp (m ≫= k) Q st.
Proof. unfold wp, mbind, M_bind. destruct (m st) as [st1 [e|a]]; simpl; auto. Qed.

Lemma wp_ret {A} (a : A) (Q : State -> exn + A -> Prop) (st : State) :
  Q st (inr a) -> wp (mret a) Q st.
Proof. exact id. Qed.

Lemma wp_raise {A} (e : exn) (Q : State -> exn + A -> Prop) (st : State) :
  Q st (inl e) -> wp (raise e) Q st.
Proof. exact id. Qed.

Lemma wp_store (n : string) (v : value) (Q : State -> exn + unit -> Prop) (st : State) :
  Q {| globals := <[n := v]> (globals st); log := log st |} (inr ()) ->
  wp (store_name n v) Q st.
Proof. exact id. Qed.

Lemma wp_load (w : World) (n : string) (Q : State -> exn + value -> Prop) (st : State) :
  match lookup_name w (globals st) n with
  | Some v => Q st (inr v)
  | None => Q st (inl (NameError n))
  end ->
  wp (load_name w n) Q st.
Proof. unfold wp, load_name. destruct (lookup_name w (globals st) n); exact id. Qed.

Lemma wp_lib (w : World) (o : op) (Q : State -> exn + value -> Prop) (st : State) :
  (∀ x, Q (record_event st (o, inl x)) (inl (Raised x))) ->
  (∀ v, Q (record_event st (o, inr v)) (inr v)) ->
  wp (lib w o) Q st.
Proof. intros Hx Hv. unfold wp, lib. destruct (answer w (log st) o); simpl; auto. Qed.

(** A stage with a [spec], run from a state in its namespace. *)
Lemma wp_spec {A} (G : gmap string value) (ok : event -> bool) (E : exn -> Prop)
    (V : A -> Prop) (m : M A) (Q : State -> exn + A -> Prop) (st : State) :
  spec G ok E V m -> globals st = G ->
  (∀ evs r, forallb ok evs = true -> propagated evs r -> outcome_in E V r ->
            Q {| globals := globals st; log := log st ++ evs |} r) ->
  wp m Q st.
Proof.
  intros Hm HG HQ. destruct (spec_at _ _ _ _ _ st Hm HG) as (evs & r & Hrun & Hok & Hp & Ho).
  unfold wp. rewrite Hrun. simpl. auto.
Qed.


Ltac wp_simpl := unfold record_event; cbn [globals log fst snd].

(** ** Counting the reads of an attribute *)

Lemma reads_app (a : string) (evs1 evs2 : list event) :
  reads a (evs1 ++ evs2) = (reads a evs1 + reads a evs2)%nat.
Proof. unfold reads. by rewrite filter_app, length_app. Qed.

Section Counting.

Context (w : World) (G : gmap string value) (a : string).

Lemma counts_bind {A B} (k1 k2 k : nat) (V : A -> Prop) (V' : B -> Prop)
    (m : M A) (f : A -> M B) :
  counts G a k1 V m -> (∀ x, V x -> counts G a k2 V' (f x)) -> (k1 + k2 <= k)%nat ->
  counts G a k V' (m ≫= f).
Proof.
  intros Hm Hf Hk lg. destruct (Hm lg) as (evs & r & Hrun & Hn & Hv).
  unfold mbind, M_bind. rewrite Hrun. destruct r as [e|x].
  - exists evs, (inl e). split; [reflexivity|]. split; [lia | exact I].
  - destruct (Hf x Hv (lg ++ evs)) as (evs' & r' & Hrun' & Hn' & Hv').
    exists (evs ++ evs'), r'. rewrite Hrun', app_assoc. split; [reflexivity|].
    split; [rewrite reads_app; lia | exact Hv'].
Qed.

Lemma counts_quiet {A} (attrs : list string) (E : exn -> Prop) (V : A -> Prop) (m : M A) :
  spec G (untouched attrs) E V m -> a ∈ attrs -> counts G a 0 V m.
Proof.
  intros Hm Ha lg. destruct (Hm lg) as (evs & r & Hrun & Hok & _ & Hout).
  exists evs, r. split; [exact Hrun|].
  split; [by rewrite (untouched_reads attrs a evs Ha Hok)|].
  destruct r; [exact I | exact Hout].
Qed.

Lemma counts_lib (o : op) : counts G a 1 (λ _, True) (lib w o).
Proof.
  intros lg. unfold lib. simpl.
  destruct (answer w lg o) as [x|v]; eexists [_], _; (split; [reflexivity|]);
    (split; [|exact I]); apply (length_filter _ [_]).
Qed.

Lemma counts_ret {A} (V : A -> Prop) (x : A) : V x -> counts G a 0 V (mret x).
Proof. intros Hx lg. exists [], (inr x). rewrite app_nil_r. by repeat split. Qed.

End Counting.

Section CountingSteps.

Context (w : World) (G : gmap string value) (a : string).

Lemma counts_bind_stuck {A B} (k : nat) (V' : B -> Prop) (m : M A) (f : A -> M B) :
  counts G a k (λ _, False) m -> counts G a k V' (m ≫= f).
Proof.
  intros Hm. eapply counts_bind; [exact Hm | intros _ [] | ].
  instantiate (1 := 0%nat). lia.
Qed.

Lemma counts_lib_quiet (o : op) :
  (∀ r, reads_attr a (o, r) = false) -> counts G a 0 (λ _, True) (lib w o).
Proof.
  intros Ho. apply (counts_quiet G a [a] (λ _, True)); [|set_solver].
  apply spec_lib_any. intros r. unfold untouched, no_read. simpl. by rewrite Ho.
Qed.

Lemma counts_load (n : string) : counts G a 0 (λ _, True) (load_name w n).
Proof.
  apply (counts_quiet G a [a] (λ _, True)); [|set_solver]. apply spec_load_any. trivial.
Qed.

Lemma counts_load_unbound (n : string) :
  lookup_name w G n = None -> counts G a 0 (λ _, False) (load_name w n).
Proof.
  intros Hn. apply (counts_quiet G a [a] (λ _, True)); [|set_solver].
  apply spec_load_unbound; [exact Hn | exact I].
Qed.

Lemma counts_iterate (v : value) : counts G a 0 (λ _, True) (iterate w v).
Proof.
  apply (counts_quiet G a [a] (λ _, True)); [|set_solver].
  apply spec_iterate_any. intros r. unfold untouched, no_read. simpl. reflexivity.
Qed.

(** A loop whose body never returns runs its body at most once. *)
Lemma counts_for_each_stuck (k : nat) (items : list value) (body : value -> M unit) :
  (∀ i, counts G a k (λ _, False) (body i)) ->
  counts G a k (λ _, True) (for_each items body).
Proof.
  intros Hbody. destruct items as [|i items]; simpl.
  - intros lg. exists [], (inr ()). rewrite app_nil_r. repeat split. unfold reads. simpl. lia.
  - apply counts_bind_stuck, Hbody.
Qed.

End CountingSteps.

Ltac count_op :=
  first
    [ apply counts_lib_quiet; intros ?; reflexivity
    | apply counts_lib
    | apply counts_load
    | apply counts_iterate ].

Ltac count_steps :=
  lazymatch goal with
  | |- counts _ _ _ _ (for_each _ _ ≫= _) => idtac
  | |- counts _ _ _ _ (load_name _ _ ≫= _) =>
      first
        [ apply counts_bind_stuck, counts_load_unbound; assumption
        | eapply counts_bind; [apply counts_load | intros ? _; count_steps | apply le_n] ]
  | |- counts _ _ _ _ (_ ≫= _) =>
      eapply counts_bind; [count_op | intros ? _; count_steps | apply le_n]
  | |- _ => idtac
  end.

Section OneRepetition.

Context (w : World) (G : gmap string value).

Local Abbreviation anything := (λ _, True).
Local Abbreviation looping := (untouched ["split"; "fit"; "DataFrame"; "append"]).

(** Neither the aggregator nor the visualizer repeats an operation of the
    loop. *)
Lemma aggregator_outside_loop (df_cvres : value) :
  spec G looping anything anything (aggregator w df_cvres).
Proof. unfold aggregator, getattr, call. spec_steps. spec_op. Qed.

Lemma lineplot_outside_loop (df_cvres ax : value) (x hue : string) (k : Z) :
  spec G looping anything anything (lineplot w df_cvres ax x hue k).
Proof. unfold lineplot, getattr, getitem, call. spec_steps. spec_op. Qed.

Lemma visualizer_outside_loop (df_cvres : value) :
  spec G looping anything anything (visualizer w df_cvres).
Proof.
  unfold visualizer, getattr, call.
  do 3 (eapply spec_bind; [spec_op | intros ? _]).
  eapply spec_bind; [spec_op | intros [fig ax] _].
  eapply spec_bind; [apply lineplot_outside_loop | intros ? _].
  eapply spec_bind; [apply lineplot_outside_loop | intros ? _].
  apply spec_ret. exact I.
Qed.

Lemma after_loop_outside_loop :
  spec G looping anything anything
    (aggregator w (VList []) ≫= λ df_cvres, visualizer w df_cvres).
Proof.
  eapply spec_bind; [apply aggregator_outside_loop | intros ? _].
  apply visualizer_outside_loop.
Qed.

Hypothesis df_curves_unbound : lookup_name w G "df_curves" = None.

Lemma repetition_counts (a : string) (p : Params) (splitter i : value) :
  a ∈ ["split"; "fit"; "DataFrame"] ->
  counts G a 1 (λ _, False) (repetition w p splitter i).
Proof.
  intros Ha. unfold repetition, getattr, getitem, call.
  rewrite !elem_of_cons, elem_of_nil in Ha. destruct Ha as [->|[->|[->|[]]]].
  all: count_steps.
Qed.

Lemma plot_counts (a : string) (p : Params) :
  a ∈ ["split"; "fit"; "DataFrame"] ->
  counts G a 1 (λ _, True) (plot_performance_vs_hyperparams w p).
Proof.
  intros Ha. unfold plot_performance_vs_hyperparams, call.
  assert (Ha' : a ∈ ["split"; "fit"; "DataFrame"; "append"]).
  { change (a ∈ ["split"; "fit"; "DataFrame"] ++ ["append"]).
    apply elem_of_app. left. exact Ha. }
  assert (Hloop : ∀ splitter items,
            counts G a 1 (λ _, True) (for_each items (repetition w p splitter))).
  { intros splitter items. apply counts_for_each_stuck. intros i.
    apply repetition_counts, Ha. }
  assert (Hrest : counts G a 0 (λ _, True)
                    (aggregator w (VList []) ≫= λ df_cvres, visualizer w df_cvres)).
  { eapply counts_quiet; [apply after_loop_outside_loop | exact Ha']. }
  rewrite !elem_of_cons, elem_of_nil in Ha. destruct Ha as [->|[->|[->|[]]]].
  all: count_steps.
  all: eapply counts_bind; [apply Hloop | intros _ _; apply Hrest | simpl; lia].
Qed.

End OneRepetition.

(** ** The first repetition, step by step *)

Lemma wp_answer (w : World) (o : op) (Q : State -> exn + value -> Prop) (st : State) :
  match answer w (log st) o with
  | inl x => Q (record_event st (o, inl x)) (inl (Raised x))
  | inr v => Q (record_event st (o, inr v)) (inr v)
  end ->
  wp (lib w o) Q st.
Proof. unfold wp, lib. destruct (answer w (log st) o); exact id. Qed.

Lemma wp_iterate (w : World) (v : value) (Q : State -> exn + list value -> Prop)
    (st : State) :
  match as_sequence (answer w (log st) (Iterate v)) with
  | inl x => Q (record_event st (Iterate v, inl x)) (inl (Raised x))
  | inr items => Q (record_event st (Iterate v, inr (VList items))) (inr items)
  end ->
  wp (iterate w v) Q st.
Proof.
  unfold wp, iterate. simpl. destruct (as_sequence (answer w (log st) (Iterate v))); exact id.
Qed.

Section FirstRepetition.

Context (w : World) (G : gmap string value) (lg : list event).

Local Abbreviation exactly_once :=
  (λ (st' : State) (r : exn + value),
     ∃ evs, log st' = lg ++ evs
            ∧ (r = inl (NameError "df_curves") ->
               reads "split" evs = 1%nat ∧ reads "fit" evs = 1%nat
               ∧ reads "DataFrame" evs = 1%nat)).

(** When the run ends with the [NameError] for [df_curves], it has split,
    fitted and tabulated exactly once. *)
Lemma first_repetition_exact (p : Params) (n : Z) :
  lookup_name w G "df_curves" = None ->
  lookup_name w G "range" = Some (VBuiltin "range") ->
  is_Some (lookup_name w G "StratifiedKFold") ->
  is_Some (lookup_name w G "MNTSLogger") ->
  is_Some (lookup_name w G "GridSearchCV") ->
  is_Some (lookup_name w G "pd") ->
  n_fold p = VInt n -> 1 <= n ->
  wp (plot_performance_vs_hyperparams w p) exactly_once {| globals := G; log := lg |}.
Proof.
  intros Hdf Hrange [skf Hskf] [mnts Hmnts] [gs Hgs] [pd Hpd] Hfold Hn.
  unfold plot_performance_vs_hyperparams, call. rewrite Hfold.
  apply wp_bind, wp_load. wp_simpl. rewrite Hskf.
  apply wp_bind, wp_lib; intros ?; wp_simpl.
  { eexists. split; [rewrite <- ?app_assoc; reflexivity | discriminate]. }
  apply wp_bind, wp_load. wp_simpl. rewrite Hmnts.
  apply wp_bind, wp_lib; intros ?; wp_simpl.
  { eexists. split; [rewrite <- ?app_assoc; reflexivity | discriminate]. }
  apply wp_bind, wp_load. wp_simpl. rewrite Hrange.
  apply wp_bind, wp_answer. unfold answer. cbn [native builtin_range]. wp_simpl.
  apply wp_bind, wp_iterate. unfold answer. cbn [native as_sequence]. wp_simpl.
  destruct (range_items_first n Hn) as [rest ->].
  apply wp_bind. simpl for_each. apply wp_bind.
  unfold repetition, getattr, getitem, call.
  repeat (apply wp_bind;
          first
            [ apply wp_lib; intros ?; wp_simpl;
              [eexists; split; [rewrite <- ?app_assoc; reflexivity | discriminate]|]
            | apply wp_load; wp_simpl; rewrite ?Hgs, ?Hpd, ?Hdf ]).
  eexists. split; [rewrite <- ?app_assoc; reflexivity|].
  intros _. vm_compute. repeat split.
Qed.

End FirstRepetition.

(** ** Binding the first two positional arguments *)



(** * The claims *)

(** C1, as stated, fails: the claim promises the [NameError] of the first
    repetition for every call with [n_fold >= 1], but the function hands on
    whatever a library raises first.  With [n_split = 1] the splitter is
    rejected on line 14, the loop is not entered, and the caller receives
    that exception, not a [NameError]. *)
Lemma rejected_split_precedes_first_repetition :
  let p := {| clf := VObj 1000; param_grid := scenario_grid; features := VObj 1001;
              targets := VObj 1002; n_split := VInt 1; n_fold := VInt 15 |} in
  let run := plot_performance_vs_hyperparams strict_world p (imported strict_world) in
  resolve strict_world "df_curves" = None
  ∧ n_fold p = VInt 15 ∧ 1 <= 15
  ∧ run.2 = inl (Raised rejected_split)
  ∧ run.2 ≠ inl (NameError "df_curves")
  ∧ log run.1 = [(one_split_call, inl rejected_split)].
Proof.
  vm_compute. repeat split; discriminate.
Qed.

(** C1, amended. The loop body appends to [df_curves], a name bound neither
    by the module nor by the function, whose accumulator is the local
    [df_cvres].  Whenever the function is called with [n_fold >= 1], the run
    ends with an exception no later than the first repetition: it splits,
    fits and tabulates at most once, looks up neither [append] nor the
    aggregator's [concat], and the exception is the [NameError] for
    [df_curves], reached after exactly one split, fit and table, if every
    operation before line 23 returned, and the exception of the operation
    that raised otherwise. *)
Theorem first_repetition_hits_unbound_df_curves (w : World) (p : Params) (n : Z) (st : State) :
  foreign w "df_curves" -> wildcards_as_expected w ->
  globals st = module_namespace w -> n_fold p = VInt n -> 1 <= n ->
  ("df_curves" ∉ named_bindings ++ param_names ++ assigned_names)
  ∧ ("df_cvres" ∈ assigned_names)
  ∧ ∃ evs e,
      plot_performance_vs_hyperparams w p st
      = ({| globals := globals st; log := log st ++ evs |}, inl e)
      ∧ stops_with "df_curves" evs e
      ∧ reads "concat" evs = 0%nat ∧ reads "append" evs = 0%nat
      ∧ (reads "split" evs <= 1)%nat ∧ (reads "fit" evs <= 1)%nat
      ∧ (reads "DataFrame" evs <= 1)%nat
      ∧ (e = NameError "df_curves" ->
         reads "split" evs = 1%nat ∧ reads "fit" evs = 1%nat
         ∧ reads "DataFrame" evs = 1%nat).
Proof.
  intros Hforeign Hwild Hst Hfold Hn.
  assert (Hout : "df_curves" ∉ named_bindings ++ param_names ++ assigned_names)
    by compute_done.
  split; [exact Hout|]. split; [compute_done|].
  assert (Hdf : resolve w "df_curves" = None).
  { apply resolve_None; [|compute_done|exact Hforeign]. intros Hin. apply Hout.
    apply elem_of_app. left. exact Hin. }
  destruct (spec_stops _ _ _ _ st (plot_stops w p n Hdf Hwild Hfold Hn) Hst)
    as (evs & e & Hrun & Hidle & Hstop).
  assert (Hsame : ∀ evs', log (plot_performance_vs_hyperparams w p st).1 = log st ++ evs' ->
                          evs' = evs).
  { intros evs' Hlog. rewrite Hrun in Hlog. simpl in Hlog.
    by apply app_inv_head in Hlog. }
  assert (Hmost : ∀ a, a ∈ ["split"; "fit"; "DataFrame"] -> (reads a evs <= 1)%nat).
  { intros a Ha. destruct st as [G lg]. simpl in Hst. subst G.
    destruct (plot_counts w _ Hdf a p Ha lg) as (evs' & r' & Hrun' & Hle & _).
    rewrite <- (Hsame evs'); [exact Hle|]. by rewrite Hrun'. }
  exists evs, e. split; [exact Hrun|]. split; [exact Hstop|].
  split; [eapply untouched_reads; [|exact Hidle]; set_solver|].
  split; [eapply untouched_reads; [|exact Hidle]; set_solver|].
  split; [apply Hmost; compute_done|]. split; [apply Hmost; compute_done|].
  split; [apply Hmost; compute_done|].
  intros He. destruct Hwild as (Hrange & Hskf & Hgs).
  destruct st as [G lg]. simpl in Hst. subst G.
  pose proof (first_repetition_exact w _ lg p n Hdf Hrange Hskf
                (mk_is_Some _ _ (resolve_MNTSLogger w)) Hgs
                (mk_is_Some _ _ (resolve_pd w)) Hfold Hn) as Hwp.
  unfold wp in Hwp. destruct Hwp as (evs' & Hlog & Hexact).
  rewrite (Hsame evs' Hlog) in Hexact. apply Hexact.
  rewrite Hrun. simpl. by rewrite He.
Qed.

Lemma first_repetition_hits_unbound_df_curves_witness :
  (foreign obliging_world "df_curves" ∧ wildcards_as_expected obliging_world
   ∧ globals (imported obliging_world) = module_namespace obliging_world
   ∧ n_fold (scenario 15) = VInt 15 ∧ 1 <= 15)
  ∧ (("df_curves" ∉ named_bindings ++ param_names ++ assigned_names)
     ∧ ("df_cvres" ∈ assigned_names)
     ∧ ∃ evs e,
         plot_performance_vs_hyperparams obliging_world (scenario 15) (imported obliging_world)
         = ({| globals := globals (imported obliging_world);
               log := log (imported obliging_world) ++ evs |}, inl e)
         ∧ stops_with "df_curves" evs e
         ∧ reads "concat" evs = 0%nat ∧ reads "append" evs = 0%nat
         ∧ (reads "split" evs <= 1)%nat ∧ (reads "fit" evs <= 1)%nat
         ∧ (reads "DataFrame" evs <= 1)%nat
         ∧ (e = NameError "df_curves" ->
            reads "split" evs = 1%nat ∧ reads "fit" evs = 1%nat
            ∧ reads "DataFrame" evs = 1%nat)).
Proof.
  split.
  - split; [repeat split; compute_done|].
    split; [repeat split; eexists; vm_compute; reflexivity|].
    split; [reflexivity|]. split; [reflexivity | lia].
  - apply (first_repetition_hits_unbound_df_curves obliging_world (scenario 15) 15
             (imported obliging_world)).
    + repeat split; compute_done.
    + repeat split; eexists; vm_compute; reflexivity.
    + reflexivity.
    + reflexivity.
    + lia.
Defined.

(** C7. The function has no handler: when a library operation raises
    during a call, that operation is the last one of the call (nothing is
    retried) and the caller receives the very exception it raised. *)
Theorem library_exception_reaches_caller (w : World) (pos : list value)
    (kw : list (string * value)) (st st' : State) (r : exn + value)
    (pre post : list event) (o : op) (x : value) :
  invoke w pos kw st = (st', r) ->
  log st' = log st ++ pre ++ (o, inl x) :: post ->
  r = inl (Raised x) ∧ post = [] ∧ globals st' = globals st.
Proof.
  intros Hrun Hlog.
  destruct (spec_at _ _ _ _ _ st (invoke_propagates w (globals st) pos kw) eq_refl)
    as (evs & r' & Hrun' & _ & Hprop & _).
  rewrite Hrun in Hrun'. injection Hrun' as -> <-. simpl in Hlog.
  apply app_inv_head in Hlog. subst evs.
  destruct (propagated_split _ _ _ _ _ Hprop) as [-> ->]. done.
Qed.

Lemma library_exception_reaches_caller_witness :
  let st := imported strict_world in
  let pos := [VObj 1000; scenario_grid; VObj 1001; VObj 1002; VInt 1] in
  let run := invoke strict_world pos [] st in
  (invoke strict_world pos [] st = (run.1, run.2)
   ∧ log run.1 = log st ++ [] ++ (one_split_call, inl rejected_split) :: [])
  ∧ run.2 = inl (Raised rejected_split) ∧ [] = ([] : list event)
    ∧ globals run.1 = globals st.
Proof.
  intros st pos run. split.
  - split; [apply surjective_pairing | vm_compute; reflexivity].
  - apply (library_exception_reaches_caller strict_world pos [] st run.1 run.2
             [] [] one_split_call rejected_split).
    + apply surjective_pairing.
    + vm_compute; reflexivity.
Defined.

(** C9. [sns] is bound by no import of the module, so each plotting call
    of lines 28 to 37, from whatever table and axes it is reached, raises
    the [NameError] for [sns] before it performs any operation.  The
    visualizer therefore ends with an exception before any [lineplot] is
    looked up (that [NameError], unless [plt.subplots] or the unpacking
    raised first), no call of the function returns, and none draws a line
    chart. *)
Theorem plotting_calls_hit_unbound_sns (w : World) (df_cvres ax : value) (x hue : string)
    (k : Z) (p : Params) (st : State) :
  foreign w "sns" -> globals st = module_namespace w ->
  ("sns" ∉ named_bindings ++ param_names ++ assigned_names)
  ∧ lineplot w df_cvres ax x hue k st = (st, inl (NameError "sns"))
  ∧ (∃ evs e,
       visualizer w df_cvres st = ({| globals := globals st; log := log st ++ evs |}, inl e)
       ∧ stops_with "sns" evs e
       ∧ reads "lineplot" evs = 0%nat)
  ∧ (∃ evs e,
       plot_performance_vs_hyperparams w p st
       = ({| globals := globals st; log := log st ++ evs |}, inl e)
       ∧ reads "lineplot" evs = 0%nat).
Proof.
  intros Hforeign Hst.
  assert (Hout : "sns" ∉ named_bindings ++ param_names ++ assigned_names) by compute_done.
  assert (Hsns : resolve w "sns" = None).
  { apply resolve_None; [|compute_done|exact Hforeign]. intros Hin. apply Hout.
    apply elem_of_app. left. exact Hin. }
  split; [exact Hout|]. split; [|split].
  - unfold lineplot, mbind, M_bind, load_name. rewrite Hst.
    unfold resolve in Hsns. rewrite Hsns. reflexivity.
  - assert (Hvis : spec (module_namespace w) (untouched ["lineplot"])
                     (λ e, e = NameError "sns") (λ _ : value, False) (visualizer w df_cvres)).
    { apply visualizer_stops; [exact Hsns | reflexivity |].
      intros Hplt. pose proof (resolve_plt w) as Hplt'. unfold resolve in Hplt'. congruence. }
    destruct (spec_stops _ _ _ _ st Hvis Hst) as (evs & e & Hrun & Hok & Hstop).
    exists evs, e. split; [exact Hrun|]. split; [exact Hstop|].
    eapply untouched_reads; [|exact Hok]. set_solver.
  - destruct (spec_at _ _ _ _ _ st (plot_never_returns w _ Hsns p) Hst)
      as (evs & r & Hrun & Hok & _ & Hout').
    destruct r as [e|v]; [|destruct Hout'].
    exists evs, e. split; [exact Hrun|].
    eapply untouched_reads; [|exact Hok]. set_solver.
Qed.

Lemma plotting_calls_hit_unbound_sns_witness :
  let st := imported obliging_world in
  (foreign obliging_world "sns" ∧ globals st = module_namespace obliging_world)
  ∧ ("sns" ∉ named_bindings ++ param_names ++ assigned_names)
  ∧ lineplot obliging_world (VObj 7) (VObj 9) "param_classification__alpha"
      "param_classification__l1_ratio" 0 st = (st, inl (NameError "sns"))
  ∧ (∃ evs e,
       visualizer obliging_world (VObj 7) st
       = ({| globals := globals st; log := log st ++ evs |}, inl e)
       ∧ stops_with "sns" evs e
       ∧ reads "lineplot" evs = 0%nat)
  ∧ (∃ evs e,
       plot_performance_vs_hyperparams obliging_world (scenario 0) st
       = ({| globals := globals st; log := log st ++ evs |}, inl e)
       ∧ reads "lineplot" evs = 0%nat).
Proof.
  intros st. split.
  - split; [repeat split; compute_done | reflexivity].
  - apply (plotting_calls_hit_unbound_sns obliging_world (VObj 7) (VObj 9)
             "param_classification__alpha" "param_classification__l1_ratio" 0
             (scenario 0) st).
    + repeat split; compute_done.
    + reflexivity.
Defined.



(** The call of line 53 supplies neither [features] nor [targets]: run as
    a script, the file stops when it binds the arguments. *)
Lemma script_misses_arguments :
  (script obliging_world (started "__main__")).2
  = inl (TypeError "missing required argument").
Proof. vm_compute. reflexivity. Qed.

(** C2 (the code departs from it). In the end-to-end scenario, with the grid
    of 2 * 2 combinations and [n_fold = 2], whatever the libraries compute,
    the call ends with an exception; nothing is aggregated and no chart is
    begun. *)
Theorem scenario_never_completes (w : World) (estimator feats targs : value) (st : State) :
  foreign w "df_curves" -> wildcards_as_expected w -> globals st = module_namespace w ->
  let p := {| clf := estimator; param_grid := scenario_grid; features := feats;
              targets := targs; n_split := VInt 7; n_fold := VInt 2 |} in
  grid_combinations scenario_grid = Some 4%nat
  ∧ ∃ evs e,
      plot_performance_vs_hyperparams w p st
      = ({| globals := globals st; log := log st ++ evs |}, inl e)
      ∧ reads "concat" evs = 0%nat ∧ reads "subplots" evs = 0%nat
      ∧ reads "lineplot" evs = 0%nat.
Proof.
  intros Hforeign Hwild Hst p. split; [reflexivity|].
  assert (Hdf : resolve w "df_curves" = None).
  { apply resolve_None; [compute_done | compute_done | exact Hforeign]. }
  destruct (spec_stops _ _ _ _ st (plot_stops w p 2 Hdf Hwild eq_refl ltac:(lia)) Hst)
    as (evs & e & Hrun & Hidle & _).
  exists evs, e. split; [exact Hrun|].
  repeat split; (eapply untouched_reads; [|exact Hidle]); set_solver.
Qed.

Lemma scenario_never_completes_witness :
  (foreign obliging_world "df_curves" ∧ wildcards_as_expected obliging_world
   ∧ globals (imported obliging_world) = module_namespace obliging_world)
  ∧ grid_combinations scenario_grid = Some 4%nat
  ∧ ∃ evs e,
      plot_performance_vs_hyperparams obliging_world (scenario 2) (imported obliging_world)
      = ({| globals := globals (imported obliging_world);
            log := log (imported obliging_world) ++ evs |}, inl e)
      ∧ reads "concat" evs = 0%nat ∧ reads "subplots" evs = 0%nat
      ∧ reads "lineplot" evs = 0%nat.
Proof.
  split.
  - split; [repeat split; compute_done|].
    split; [repeat split; eexists; vm_compute; reflexivity | reflexivity].
  - apply (scenario_never_completes obliging_world (VObj 1000) (VObj 1001) (VObj 1002)
             (imported obliging_world)).
    + repeat split; compute_done.
    + repeat split; eexists; vm_compute; reflexivity.
    + reflexivity.
Defined.

(** C3 (the code departs from it). With one repetition over a grid of four
    combinations and libraries that answer everything, the call builds one
    result table, raises [NameError] for [df_curves] and aggregates no table
    at all; with three repetitions it still builds one. *)
Lemma one_repetition_aggregates_nothing :
  let run n := plot_performance_vs_hyperparams obliging_world (scenario n)
                 (imported obliging_world) in
  grid_combinations (param_grid (scenario 1)) = Some 4%nat
  ∧ (run 1).2 = inl (NameError "df_curves")
  ∧ reads "DataFrame" (log (run 1).1) = 1%nat
  ∧ reads "concat" (log (run 1).1) = 0%nat
  ∧ (run 3).2 = inl (NameError "df_curves")
  ∧ reads "DataFrame" (log (run 3).1) = 1%nat
  ∧ reads "concat" (log (run 3).1) = 0%nat.
Proof. vm_compute. repeat split. Qed.

(** C4 (the code departs from it). The only list the aggregator can
    receive is the empty one: with no repetition [pd.concat] is called with
    [[]], and with two repetitions the table that was built is handed to
    [df_curves.append] never, and [pd.concat] is not reached. *)
Lemma aggregator_receives_no_table :
  let run n := plot_performance_vs_hyperparams obliging_world (scenario n)
                 (imported obliging_world) in
  arguments_to "concat" (log (run 0).1) = [[VList []]]
  ∧ reads "reset_index" (log (run 0).1) = 1%nat
  ∧ reads "DataFrame" (log (run 2).1) = 1%nat
  ∧ reads "append" (log (run 2).1) = 0%nat
  ∧ arguments_to "concat" (log (run 2).1) = [].
Proof. vm_compute. repeat split. Qed.

(** C5 (the code departs from it). With the default fifteen repetitions
    and libraries that answer everything, a split is constructed once, not
    fifteen times: the run ends in the first repetition. *)
Lemma later_repetitions_never_split :
  let run := plot_performance_vs_hyperparams obliging_world (scenario 15)
               (imported obliging_world) in
  reads "split" (log run.1) = 1%nat
  ∧ reads "fit" (log run.1) = 1%nat
  ∧ run.2 = inl (NameError "df_curves").
Proof. vm_compute. repeat split. Qed.

(** C8 (the code departs from it). Even when the loop is empty and the
    libraries answer everything, the visualizer opens the figure of two
    panels with a shared vertical axis and then draws nothing: the call
    raises [NameError] for [sns] instead of returning. *)
Lemma visualizer_draws_nothing :
  let run := plot_performance_vs_hyperparams obliging_world (scenario 0)
               (imported obliging_world) in
  arguments_to "subplots" (log run.1) = [[VInt 1; VInt 2]]
  ∧ reads "lineplot" (log run.1) = 0%nat
  ∧ run.2 = inl (NameError "sns").
Proof. vm_compute. repeat split. Qed.

(** * Further properties of the script *)

(** ** Import order *)

Lemma lookup_named_objects (w : World) (n : string) (v : value) :
  assoc n named_objects = Some v -> module_namespace w !! n = Some v.
Proof.
  rewrite module_namespace_unfold. unfold assoc, named_objects. simpl.
  repeat match goal with
         | |- context [String.eqb n ?s] =>
             destruct (String.eqb_spec n s) as [->|?];
             [simpl; intros [= <-]; by simplify_map_eq|]
         end.
  discriminate.
Qed.

Lemma lookup_unnamed (w : World) (n : string) :
  assoc n named_objects = None ->
  module_namespace w !! n =
  foldl (λ (g : gmap string value) n', <[n' := VMember "sklearn.model_selection" n']> g)
    (foldl (λ (g : gmap string value) n', <[n' := VMember "sklearn" n']> g)
       (fresh_module module_name) (star_exports w "sklearn"))
    (star_exports w "sklearn.model_selection") !! n.
Proof.
  rewrite module_namespace_unfold. unfold assoc, named_objects. simpl.
  repeat match goal with
         | |- context [String.eqb n ?s] =>
             destruct (String.eqb_spec n s) as [->|?]; [discriminate|]
         end.
  intros _. by rewrite !lookup_insert_ne.
Qed.

(** X1. Import order decides what a name means once the module is imported:
    a name bound by name on lines 3 to 8 keeps that binding whatever the
    wildcard imports export; otherwise an export of [sklearn.model_selection]
    wins over one of [sklearn], either of them hides an attribute the module
    holds from the start ([__name__], [__file__], [__builtins__] and the
    like), such an attribute hides a builtin of the same name, and a name
    that none of them provides is unbound. *)
Theorem resolve_precedence (w : World) (n : string) :
  resolve w n =
  match assoc n named_objects with
  | Some v => Some v
  | None =>
      if decide (n ∈ star_exports w "sklearn.model_selection")
      then Some (VMember "sklearn.model_selection" n)
      else if decide (n ∈ star_exports w "sklearn") then Some (VMember "sklearn" n)
      else if decide (n ∈ module_attributes) then Some (module_attribute module_name n)
      else if decide (n ∈ builtins w) then Some (VBuiltin n)
      else None
  end.
Proof.
  unfold resolve, lookup_name.
  destruct (assoc n named_objects) as [v|] eqn:Hnamed.
  - by rewrite (lookup_named_objects w n v Hnamed).
  - rewrite (lookup_unnamed w n Hnamed).
    destruct (decide (n ∈ star_exports w "sklearn.model_selection")) as [Hms|Hms].
    + by rewrite lookup_foldl_insert_in.
    + rewrite lookup_foldl_insert_notin by exact Hms.
      destruct (decide (n ∈ star_exports w "sklearn")) as [Hsk|Hsk].
      * by rewrite lookup_foldl_insert_in.
      * rewrite lookup_foldl_insert_notin by exact Hsk. rewrite lookup_fresh_module.
        destruct (decide (n ∈ module_attributes)) as [Hattr|Hattr]; [reflexivity|].
        destruct (decide (n ∈ builtins w)) as [Hb|Hb].
        -- by rewrite bool_decide_eq_true_2.
        -- by rewrite bool_decide_eq_false_2.
Qed.

(** ** Binding the arguments of a call *)

(** X2. A call with positional arguments only binds its parameters exactly
    when it has four to six of them: the first four are [clf], [param_grid],
    [features] and [targets]; [n_split] and [n_fold] are the fifth and the
    sixth when present, and 7 and 15 otherwise. *)
Theorem positional_call_binds (pos : list value) (p : Params) :
  bind_params pos [] = inr p
  ↔ (length pos <= 6)%nat
    ∧ pos !! 0%nat = Some (clf p) ∧ pos !! 1%nat = Some (param_grid p)
    ∧ pos !! 2%nat = Some (features p) ∧ pos !! 3%nat = Some (targets p)
    ∧ n_split p = default (VInt 7) (pos !! 4%nat)
    ∧ n_fold p = default (VInt 15) (pos !! 5%nat).
Proof.
  destruct p as [a b c d e f].
  destruct pos as [|x0 [|x1 [|x2 [|x3 [|x4 [|x5 [|x6 pos]]]]]]]; simpl;
    (split; [intros H | intros (Hlen & H0 & H1 & H2 & H3 & H4 & H5)]);
    simplify_eq/=; try done; try lia.
  all: try (vm_compute in H; simplify_eq; repeat split; (lia || reflexivity)).
  all: vm_compute; reflexivity.
Qed.

(** X3. A call with fewer than four or more than six positional arguments
    (and no keywords) raises [TypeError] before anything happens: no
    operation is performed and the state is unchanged. *)
Theorem wrong_arity_call_does_nothing (w : World) (pos : list value) (st : State) :
  (length pos < 4 ∨ 6 < length pos)%nat ->
  ∃ msg, invoke w pos [] st = (st, inl (TypeError msg)).
Proof.
  intros Hlen. unfold invoke.
  destruct pos as [|x0 [|x1 [|x2 [|x3 [|x4 [|x5 [|x6 pos]]]]]]]; simpl in *;
    try lia; eexists; reflexivity.
Qed.

Lemma wrong_arity_call_does_nothing_witness :
  let st := imported obliging_world in
  (length [VObj 1000; scenario_grid] < 4 ∨ 6 < length [VObj 1000; scenario_grid])%nat
  ∧ ∃ msg, invoke obliging_world [VObj 1000; scenario_grid] [] st = (st, inl (TypeError msg)).
Proof.
  intros st. split.
  - left. simpl. lia.
  - apply (wrong_arity_call_does_nothing obliging_world [VObj 1000; scenario_grid] st).
    left. simpl. lia.
Defined.

(** X4. A keyword that names no parameter (such as [n_splits], the spelling
    scikit-learn uses, for [n_split]) makes the call raise [TypeError] before
    anything happens. *)
Theorem stray_keyword_rejected (w : World) (pos : list value) (kw : list (string * value))
    (k : string) (v : value) (st : State) :
  (k, v) ∈ kw -> k ∉ param_names ->
  ∃ msg, invoke w pos kw st = (st, inl (TypeError msg)).
Proof.
  intros Hin Hk. unfold invoke, bind_params.
  destruct (stray_keyword_error pos kw k v Hin Hk) as [e He]. rewrite He.
  destruct (keyword_error_type pos kw e He) as [msg ->].
  exists msg. reflexivity.
Qed.

Lemma stray_keyword_rejected_witness :
  let st := imported obliging_world in
  let pos := [VObj 1000; scenario_grid; VObj 1001; VObj 1002] in
  (("n_splits", VInt 5) ∈ [("n_splits", VInt 5)] ∧ "n_splits" ∉ param_names)
  ∧ ∃ msg, invoke obliging_world pos [("n_splits", VInt 5)] st = (st, inl (TypeError msg)).
Proof.
  intros st pos. split.
  - split; [left | compute_done].
  - apply (stray_keyword_rejected obliging_world pos [("n_splits", VInt 5)] "n_splits"
             (VInt 5) st); [left | compute_done].
Defined.

(** ** What a call leaves behind *)

(** X5. A call never rebinds a global name and never rewrites the log: the
    namespace after the call is the one before, the log is the old one
    followed by the events of the call, and among these only the last one
    can be an operation that raised. *)
Theorem call_only_appends_to_the_log (w : World) (pos : list value)
    (kw : list (string * value)) (st : State) :
  globals (invoke w pos kw st).1 = globals st
  ∧ ∃ evs, log (invoke w pos kw st).1 = log st ++ evs
           ∧ propagated evs (invoke w pos kw st).2.
Proof.
  destruct (spec_at _ _ _ _ _ st (invoke_propagates w (globals st) pos kw) eq_refl)
    as (evs & r & Hrun & _ & Hprop & _).
  rewrite Hrun. simpl. split; [reflexivity|]. exists evs. split; [reflexivity | exact Hprop].
Qed.

(** ** The file run as a script *)

Lemma wp_bind_exports (w : World) (m : string) (Q : State -> exn + unit -> Prop)
    (st : State) :
  Q {| globals := foldl (λ g n, <[n := VMember m n]> g) (globals st) (star_exports w m);
       log := log st |} (inr ()) ->
  wp (bind_exports w m) Q st.
Proof. exact id. Qed.

Lemma lookup_name_foldl_notin (w : World) (f : string -> value) (names : list string)
    (g : gmap string value) (n : string) :
  n ∉ names ->
  lookup_name w (foldl (λ g n', <[n' := f n']> g) g names) n = lookup_name w g n.
Proof. intros Hn. unfold lookup_name. by rewrite lookup_foldl_insert_notin. Qed.

Lemma lookup_name_main (w : World) :
  lookup_name w (fresh_module "__main__") "__name__" = Some (VStr "__main__").
Proof. unfold lookup_name. rewrite lookup_fresh_module. reflexivity. Qed.

(** A leaf of the script's run: name the exception and the events, then
    pick the way it stopped. *)
Ltac script_leaf :=
  eexists _, _; split; [reflexivity|];
  split; [first [rewrite <- ?app_assoc; reflexivity | symmetry; apply app_nil_r]|];
  split; [reflexivity|];
  unfold script_stop; simpl;
  first
    [ left; repeat split; reflexivity
    | right; left; eexists; split; [reflexivity|];
      split; [compute_done | split; [simpl; lia | reflexivity]]
    | right; right; eexists _, _; split; [reflexivity|];
      split; [reflexivity | simpl; lia] ].

Ltac script_lib := apply wp_bind, wp_lib; intros ?; wp_simpl; [script_leaf|].

Ltac script_load :=
  apply wp_bind, wp_load; wp_simpl;
  rewrite ?lookup_name_insert_ne by discriminate;
  match goal with
  | |- context [lookup_name ?w ?g ?n] => destruct (lookup_name w g n)
  end; [|script_leaf].

Ltac script_import :=
  apply wp_bind; unfold import_star, import_as, from_import;
  script_lib; first [apply wp_bind_exports | apply wp_store]; wp_simpl.

(** X6. Run as a script (the module starts under the name [__main__], which
    the wildcard imports do not rebind), the file never gets to the search:
    whatever the libraries answer, the run ends with an exception after at
    most twelve operations, the six imports of lines 1 to 6, in source
    order, and the six operations of the [__main__] block.  If they all
    return, the exception is the [TypeError] of line 53, whose call lacks
    [features] and [targets]; otherwise it is the [NameError] of a submodule
    the wildcard import did not provide, or the exception of the operation,
    an import among them, that raised. *)
Theorem script_stops_at_the_call (w : World) (st : State) :
  globals st = fresh_module "__main__" ->
  "__name__" ∉ star_exports w "sklearn" ->
  "__name__" ∉ star_exports w "sklearn.model_selection" ->
  ∃ e evs,
    (script w st).2 = inl e
    ∧ log (script w st).1 = log st ++ evs
    ∧ take 6 evs.*1 = take (length evs) import_ops
    ∧ script_stop evs e.
Proof.
  intros Hst Hsk Hms. destruct st as [G lg]. simpl in Hst. subst G.
  change (wp (script w)
            (λ st' r, ∃ e evs, r = inl e ∧ log st' = lg ++ evs
                               ∧ take 6 evs.*1 = take (length evs) import_ops
                               ∧ script_stop evs e)
            {| globals := fresh_module "__main__"; log := lg |}).
  unfold script, module_top.
  apply wp_bind. do 6 script_import. apply wp_store. wp_simpl.
  apply wp_bind, wp_load. wp_simpl.
  rewrite !lookup_name_insert_ne by discriminate.
  rewrite !lookup_name_foldl_notin by assumption.
  rewrite lookup_name_main. cbn [run_as_main String.eqb Ascii.eqb Bool.eqb].
  unfold main. apply wp_bind. unfold main_setup, getattr, call.
  script_load. script_lib. script_load. script_lib. script_lib. script_lib.
  apply wp_bind, wp_store. wp_simpl.
  script_load. script_lib. script_lib.
  apply wp_store. wp_simpl.
  apply wp_bind, wp_load. wp_simpl.
  rewrite !lookup_name_insert_ne by discriminate. rewrite lookup_name_insert_eq.
  unfold main_call_args.
  apply wp_bind, wp_bind, wp_load. wp_simpl.
  rewrite lookup_name_insert_ne by discriminate. rewrite lookup_name_insert_eq.
  apply wp_bind, wp_load. wp_simpl. rewrite lookup_name_insert_eq.
  apply wp_ret. unfold invoke. simpl. apply wp_raise. script_leaf.
Qed.

Lemma script_stops_at_the_call_witness :
  let st := started "__main__" in
  (globals st = fresh_module "__main__"
   ∧ ("__name__" ∉ star_exports obliging_world "sklearn")
   ∧ ("__name__" ∉ star_exports obliging_world "sklearn.model_selection"))
  ∧ ∃ e evs,
      (script obliging_world st).2 = inl e
      ∧ log (script obliging_world st).1 = log st ++ evs
      ∧ take 6 evs.*1 = take (length evs) import_ops
      ∧ script_stop evs e.
Proof.
  intros st. split.
  - split; [reflexivity|]. split; compute_done.
  - apply (script_stops_at_the_call obliging_world st); [reflexivity | compute_done..].
Defined.

(** X7. While [df_curves] is unbound, at most one repetition runs, whatever
    [n_fold], the other arguments and the libraries are: a call looks up
    [split] at most once, [fit] at most once and [DataFrame] at most
    once. *)
Theorem at_most_one_repetition (w : World) (p : Params) (st : State) (a : string) :
  lookup_name w (globals st) "df_curves" = None ->
  a ∈ ["split"; "fit"; "DataFrame"] ->
  ∃ evs,
    log (plot_performance_vs_hyperparams w p st).1 = log st ++ evs
    ∧ (reads a evs <= 1)%nat.
Proof.
  intros Hdf Ha. destruct st as [G lg]. simpl in Hdf.
  destruct (plot_counts w G Hdf a p Ha lg) as (evs & r & Hrun & Hn & _).
  exists evs. rewrite Hrun. split; [reflexivity | exact Hn].
Qed.

Lemma at_most_one_repetition_witness :
  let st := imported obliging_world in
  (lookup_name obliging_world (globals st) "df_curves" = None
   ∧ "fit" ∈ ["split"; "fit"; "DataFrame"])
  ∧ ∃ evs,
      log (plot_performance_vs_hyperparams obliging_world (scenario 15) st).1 = log st ++ evs
      ∧ (reads "fit" evs <= 1)%nat.
Proof.
  intros st. split.
  - split; [vm_compute; reflexivity | compute_done].
  - apply (at_most_one_repetition obliging_world (scenario 15) st "fit");
      [vm_compute; reflexivity | compute_done].
Defined.

(** ** A repetition count that is not positive *)

Section EmptyLoop.

Context (w : World) (G : gmap string value).

Local Abbreviation anything := (λ _, True).
Local Abbreviation looping := (untouched ["split"; "fit"; "DataFrame"; "append"]).

Lemma plot_skips_loop (p : Params) (n : Z) :
  lookup_name w G "range" = Some (VBuiltin "range") -> n_fold p = VInt n -> n <= 0 ->
  spec G looping anything anything (plot_performance_vs_hyperparams w p).
Proof.
  intros Hrange Hfold Hn. unfold plot_performance_vs_hyperparams, call. rewrite Hfold.
  do 4 (eapply spec_bind; [spec_op | intros ? _]).
  eapply spec_bind with (V := λ v, v = VBuiltin "range").
  { apply spec_load. rewrite Hrange. reflexivity. }
  intros ? ->.
  eapply spec_bind with (V := λ v, v = VRange n).
  { apply spec_lib; [intros ?; reflexivity|]. intros lg v Hv. injection Hv as <-. reflexivity. }
  intros ? ->.
  eapply spec_bind with (V := λ items, items = range_items n).
  { apply spec_iterate; [intros ?; reflexivity|]. intros lg items Hi. injection Hi as <-.
    reflexivity. }
  intros ? ->. rewrite (range_items_nonpositive n Hn). simpl.
  eapply spec_bind with (V := λ _, True); [apply spec_ret; exact I | intros _ _].
  apply after_loop_outside_loop.
Qed.

Lemma aggregator_tail_propagates (concat df_cvres : value) :
  spec G any_event anything anything
    (df ← call w concat [df_cvres] [];
     reset_index ← getattr w df "reset_index";
     call w reset_index [] []).
Proof. unfold getattr, call. spec_steps. spec_op. Qed.

Lemma plot_loop_skipped (p : Params) (n : Z) (skf mnts pdv : value) (lg : list event) :
  lookup_name w G "range" = Some (VBuiltin "range") ->
  lookup_name w G "StratifiedKFold" = Some skf ->
  lookup_name w G "MNTSLogger" = Some mnts ->
  lookup_name w G "pd" = Some pdv ->
  n_fold p = VInt n -> n <= 0 ->
  wp (plot_performance_vs_hyperparams w p)
    (λ st' r, ∃ evs, log st' = lg ++ evs ∧ loop_skipped skf mnts pdv p n evs r)
    {| globals := G; log := lg |}.
Proof.
  intros Hrange Hskf Hmnts Hpd Hfold Hn.
  unfold plot_performance_vs_hyperparams, call, getitem. rewrite Hfold.
  apply wp_bind, wp_load. wp_simpl. rewrite Hskf.
  apply wp_bind, wp_lib; intros ?; wp_simpl.
  { eexists. split; [reflexivity|]. left. eexists. split; reflexivity. }
  apply wp_bind, wp_load. wp_simpl. rewrite Hmnts.
  apply wp_bind, wp_lib; intros ?; wp_simpl.
  { eexists. split; [rewrite <- ?app_assoc; reflexivity|].
    right. left. eexists _, _. split; reflexivity. }
  apply wp_bind, wp_load. wp_simpl. rewrite Hrange.
  apply wp_bind, wp_answer. unfold answer. cbn [native builtin_range]. wp_simpl.
  apply wp_bind, wp_iterate. unfold answer. cbn [native as_sequence]. wp_simpl.
  rewrite (range_items_nonpositive n Hn). cbn [for_each].
  apply wp_bind, wp_ret. apply wp_bind. unfold aggregator at 1.
  apply wp_bind, wp_load. wp_simpl. rewrite Hpd. unfold getattr at 1.
  apply wp_bind, wp_lib; intros ?; wp_simpl.
  { eexists. split; [rewrite <- ?app_assoc; reflexivity|].
    right. right. eexists _, _, _, []. reflexivity. }
  eapply wp_spec; [apply aggregator_tail_propagates | reflexivity|].
  intros evs1 [e|df] _ _ _; cbn [globals log].
  { eexists. split; [rewrite <- ?app_assoc; reflexivity|].
    right. right. eexists _, _, _, _. reflexivity. }
  eapply wp_spec; [apply (visualizer_propagates w G) | reflexivity|].
  intros evs2 r _ _ _; cbn [globals log].
  eexists. split; [rewrite <- ?app_assoc; reflexivity|].
  right. right. eexists _, _, _, _. reflexivity.
Qed.

End EmptyLoop.

(** X8. With a repetition count that is zero or negative, and the names of
    lines 14 to 25 bound, the loop is skipped without complaint.  The call
    splits, fits, tabulates and appends nothing; and unless the splitter's
    construction or the logger's lookup raises, [range(n_fold)] and the
    iteration over it return, with no item, and the very next operation is
    the aggregator's lookup of [pd.concat]. *)
Theorem no_repetition_without_folds (w : World) (p : Params) (n : Z) (st : State)
    (skf mnts pdv : value) :
  lookup_name w (globals st) "range" = Some (VBuiltin "range") ->
  lookup_name w (globals st) "StratifiedKFold" = Some skf ->
  lookup_name w (globals st) "MNTSLogger" = Some mnts ->
  lookup_name w (globals st) "pd" = Some pdv ->
  n_fold p = VInt n -> n <= 0 ->
  ∃ evs,
    log (plot_performance_vs_hyperparams w p st).1 = log st ++ evs
    ∧ reads "split" evs = 0%nat ∧ reads "fit" evs = 0%nat
    ∧ reads "DataFrame" evs = 0%nat ∧ reads "append" evs = 0%nat
    ∧ loop_skipped skf mnts pdv p n evs (plot_performance_vs_hyperparams w p st).2.
Proof.
  intros Hrange Hskf Hmnts Hpd Hfold Hn.
  destruct (spec_at _ _ _ _ _ st (plot_skips_loop w _ p n Hrange Hfold Hn) eq_refl)
    as (evs & r & Hrun & Hok & _ & _).
  exists evs. split; [rewrite Hrun; reflexivity|].
  do 4 (split; [eapply untouched_reads; [|exact Hok]; set_solver|]).
  destruct st as [G lg]. simpl in *.
  pose proof (plot_loop_skipped w G p n skf mnts pdv lg Hrange Hskf Hmnts Hpd Hfold Hn)
    as Hwp.
  unfold wp in Hwp. destruct Hwp as (evs' & Hlog & Hshape).
  rewrite Hrun in Hlog. simpl in Hlog. apply app_inv_head in Hlog. subst evs'.
  exact Hshape.
Qed.

Lemma no_repetition_without_folds_witness :
  let st := imported obliging_world in
  let skf := VMember "sklearn.model_selection" "StratifiedKFold" in
  let mnts := VMember "mnts.mnts_logger" "MNTSLogger" in
  let pdv := VModule "pandas" in
  (lookup_name obliging_world (globals st) "range" = Some (VBuiltin "range")
   ∧ lookup_name obliging_world (globals st) "StratifiedKFold" = Some skf
   ∧ lookup_name obliging_world (globals st) "MNTSLogger" = Some mnts
   ∧ lookup_name obliging_world (globals st) "pd" = Some pdv
   ∧ n_fold (scenario (-3)) = VInt (-3) ∧ -3 <= 0)
  ∧ ∃ evs,
      log (plot_performance_vs_hyperparams obliging_world (scenario (-3)) st).1
      = log st ++ evs
      ∧ reads "split" evs = 0%nat ∧ reads "fit" evs = 0%nat
      ∧ reads "DataFrame" evs = 0%nat ∧ reads "append" evs = 0%nat
      ∧ loop_skipped skf mnts pdv (scenario (-3)) (-3) evs
          (plot_performance_vs_hyperparams obliging_world (scenario (-3)) st).2.
Proof.
  intros st skf mnts pdv. split.
  - do 4 (split; [vm_compute; reflexivity|]). split; [reflexivity | lia].
  - apply (no_repetition_without_folds obliging_world (scenario (-3)) (-3) st skf mnts pdv);
      [vm_compute; reflexivity.. | reflexivity | lia].
Defined.

(** ** The settings of the grid search *)

Section Settings.

Context (w : World) (G : gmap string value).

Local Abbreviation anything := (λ _, True).






End Settings.


(** ** What the aggregator is given *)

Lemma arguments_to_cons_quiet (a : string) (ev : event) (rest : list event) :
  reads_attr a ev = false -> arguments_to a (ev :: rest) = arguments_to a rest.
Proof. intros Hev. destruct rest as [|[[] ?] ?]; simpl; rewrite ?Hev; reflexivity. Qed.

Lemma arguments_to_read_call (a : string) (ev : event) (f : value) (args : list value)
    (kwargs : list (string * value)) (r : response) (rest : list event) :
  reads_attr a ev = true ->
  arguments_to a (ev :: (Call f args kwargs, r) :: rest) = args :: arguments_to a rest.
Proof.
  intros Hev. change (arguments_to a (ev :: (Call f args kwargs, r) :: rest))
    with (if reads_attr a ev then args :: arguments_to a ((Call f args kwargs, r) :: rest)
          else arguments_to a ((Call f args kwargs, r) :: rest)).
  rewrite Hev. by rewrite arguments_to_cons_quiet.
Qed.

Lemma untouched_reads_attr (attrs : list string) (a : string) (ev : event) :
  a ∈ attrs -> untouched attrs ev = true -> reads_attr a ev = false.
Proof.
  intros Ha Hev. unfold untouched in Hev. rewrite forallb_forall in Hev.
  apply list_elem_of_In, Hev in Ha. unfold no_read in Ha. by apply negb_true_iff.
Qed.

Lemma arguments_to_app_quiet (attrs : list string) (a : string) (evs1 evs2 : list event) :
  a ∈ attrs -> forallb (untouched attrs) evs1 = true ->
  arguments_to a (evs1 ++ evs2) = arguments_to a evs2.
Proof.
  intros Ha. induction evs1 as [|ev evs1 IH]; [reflexivity|].
  intros [Hev Hevs]%andb_prop. rewrite <- app_comm_cons.
  rewrite arguments_to_cons_quiet by (eapply untouched_reads_attr; eassumption).
  apply IH, Hevs.
Qed.

Lemma arguments_to_quiet (attrs : list string) (a : string) (evs : list event) :
  a ∈ attrs -> forallb (untouched attrs) evs = true -> arguments_to a evs = [].
Proof.
  intros Ha Hevs. rewrite <- (app_nil_r evs).
  by rewrite (arguments_to_app_quiet attrs a evs [] Ha Hevs).
Qed.

Section Feeding.

Context (G : gmap string value) (a : string) (args : list value).

Lemma feeds_bind_quiet {A B} (attrs : list string) (E : exn -> Prop) (V : A -> Prop)
    (m : M A) (f : A -> M B) :
  a ∈ attrs -> spec G (untouched attrs) E V m ->
  (∀ x, V x -> feeds G a args (f x)) -> feeds G a args (m ≫= f).
Proof.
  intros Ha Hm Hf lg. destruct (Hm lg) as (evs & r & Hrun & Hok & _ & Hout).
  unfold mbind, M_bind. rewrite Hrun. destruct r as [e|x].
  - exists evs, (inl e). split; [reflexivity|]. left. eapply arguments_to_quiet; eassumption.
  - destruct (Hf x Hout (lg ++ evs)) as (evs' & r' & Hrun' & Hargs).
    exists (evs ++ evs'), r'. rewrite Hrun', app_assoc. split; [reflexivity|].
    by rewrite (arguments_to_app_quiet attrs a evs evs' Ha Hok).
Qed.

End Feeding.

Section Aggregated.

Context (w : World) (G : gmap string value).

Local Abbreviation anything := (λ _, True).
Local Abbreviation apart := (untouched ["concat"]).

Lemma repetition_apart (p : Params) (splitter i : value) :
  spec G apart anything anything (repetition w p splitter i).
Proof.
  unfold repetition, getattr, getitem, call. spec_steps. apply spec_ret. exact I.
Qed.

Lemma lineplot_apart (df_cvres ax : value) (x hue : string) (k : Z) :
  spec G apart anything anything (lineplot w df_cvres ax x hue k).
Proof. unfold lineplot, getattr, getitem, call. spec_steps. spec_op. Qed.

Lemma visualizer_apart (df_cvres : value) :
  spec G apart anything anything (visualizer w df_cvres).
Proof.
  unfold visualizer, getattr, call.
  do 3 (eapply spec_bind; [spec_op | intros ? _]).
  eapply spec_bind; [spec_op | intros [fig ax] _].
  eapply spec_bind; [apply lineplot_apart | intros ? _].
  eapply spec_bind; [apply lineplot_apart | intros ? _].
  apply spec_ret. exact I.
Qed.

Lemma reset_index_apart (df_cvres : value) :
  spec G apart anything anything
    (getattr w df_cvres "reset_index" ≫= λ reset_index, call w reset_index [] []).
Proof. unfold getattr, call. spec_steps. spec_op. Qed.

(** The aggregator calls [concat] with the list it was given, and nothing
    after that call reads [concat] again. *)
Lemma after_loop_feeds (df_cvres : value) :
  feeds G "concat" [df_cvres]
    (aggregator w df_cvres ≫= λ df_cvres', visualizer w df_cvres').
Proof.
  intros lg.
  enough (Hwp : wp (aggregator w df_cvres ≫= λ df_cvres', visualizer w df_cvres')
                  (λ st' r, ∃ evs, st' = {| globals := G; log := lg ++ evs |}
                                   ∧ (arguments_to "concat" evs = []
                                      ∨ arguments_to "concat" evs = [[df_cvres]]))
                  {| globals := G; log := lg |}).
  { unfold wp in Hwp. destruct Hwp as (evs & Hst & Hargs).
    eexists evs, (_ {| globals := G; log := lg |}).2.
    split; [|exact Hargs]. rewrite <- Hst. apply surjective_pairing. }
  apply wp_bind. unfold aggregator, getattr, call.
  apply wp_bind, wp_load. wp_simpl. destruct (lookup_name w G "pd") as [pd|].
  2: { exists []. rewrite app_nil_r. split; [reflexivity | left; reflexivity]. }
  apply wp_bind, wp_lib; intros ?; wp_simpl.
  { eexists [_]. split; [reflexivity | left; reflexivity]. }
  apply wp_bind, wp_lib; intros ?; wp_simpl.
  { eexists [_; _]. rewrite <- app_assoc. split; [reflexivity | right; reflexivity]. }
  eapply wp_spec; [apply reset_index_apart | reflexivity |]. wp_simpl.
  intros evs1 r1 Hok1 _ _.
  assert (Hdone : ∀ evs,
            forallb apart evs = true ->
            arguments_to "concat"
              ((GetAttr pd "concat", inr v) :: (Call v [df_cvres] [], inr v0) :: evs)
            = [[df_cvres]]).
  { intros evs Hevs. rewrite arguments_to_read_call by reflexivity.
    rewrite (arguments_to_quiet ["concat"] "concat" evs); [reflexivity | | exact Hevs].
    apply list_elem_of_here. }
  destruct r1 as [e|df'].
  - eexists (_ :: _ :: evs1). rewrite <- !app_assoc. split; [reflexivity|].
    right. apply Hdone, Hok1.
  - eapply wp_spec; [apply visualizer_apart | reflexivity |]. wp_simpl.
    intros evs2 r2 Hok2 _ _.
    eexists (_ :: _ :: evs1 ++ evs2). rewrite <- !app_assoc. split; [reflexivity|].
    right. apply Hdone. rewrite forallb_app, Hok1, Hok2. reflexivity.
Qed.

Lemma plot_feeds (p : Params) :
  feeds G "concat" [VList []] (plot_performance_vs_hyperparams w p).
Proof.
  unfold plot_performance_vs_hyperparams, call.
  repeat (eapply feeds_bind_quiet
            with (attrs := ["concat"]) (E := λ _, True) (V := λ _, True);
          [apply list_elem_of_here | spec_op | intros ? _]).
  eapply feeds_bind_quiet with (attrs := ["concat"]) (E := λ _, True) (V := λ _, True);
    [apply list_elem_of_here | | intros ? _].
  { apply spec_for_each. intros i. apply repetition_apart. }
  apply after_loop_feeds.
Qed.

End Aggregated.

(** X10. Whatever the arguments, the libraries and the namespace (even one
    that binds [df_curves]), [pd.concat] is called at most once in a call,
    and only with the empty list: the tables of the repetitions cannot
    reach the aggregator. *)
Theorem aggregator_is_given_the_empty_list (w : World) (p : Params) (st : State) :
  ∃ evs,
    log (plot_performance_vs_hyperparams w p st).1 = log st ++ evs
    ∧ (arguments_to "concat" evs = [] ∨ arguments_to "concat" evs = [[VList []]]).
Proof.
  destruct st as [G lg]. destruct (plot_feeds w G p lg) as (evs & r & Hrun & Hargs).
  exists evs. rewrite Hrun. split; [reflexivity | exact Hargs].
Qed.

(** ** What a call returns *)

Section Returned.

Context (w : World) (G : gmap string value).

Local Abbreviation anything := (λ _, True).

Lemma visualizer_returns_none (df_cvres : value) :
  spec G any_event anything (λ v, v = VNone) (visualizer w df_cvres).
Proof.
  unfold visualizer, getattr, call.
  do 3 (eapply spec_bind; [spec_op | intros ? _]).
  eapply spec_bind; [spec_op | intros [fig ax] _].
  eapply spec_bind; [apply lineplot_propagates | intros ? _].
  eapply spec_bind; [apply lineplot_propagates | intros ? _].
  apply spec_ret. reflexivity.
Qed.

Lemma plot_returns_none (p : Params) :
  spec G any_event anything (λ v, v = VNone) (plot_performance_vs_hyperparams w p).
Proof.
  unfold plot_performance_vs_hyperparams, call. spec_steps.
  eapply spec_bind; [apply spec_for_each; intros i; apply repetition_propagates | intros ? _].
  eapply spec_bind; [apply aggregator_propagates | intros ? _].
  apply visualizer_returns_none.
Qed.

End Returned.

(** X11. A call that returns at all returns [None]: the aggregated table
    and the figure are not handed back to the caller. *)
Theorem call_returns_nothing (w : World) (pos : list value) (kw : list (string * value))
    (st : State) (v : value) :
  (invoke w pos kw st).2 = inr v -> v = VNone.
Proof.
  unfold invoke. destruct (bind_params pos kw) as [e|p]; [discriminate|].
  destruct (spec_at _ _ _ _ _ st (plot_returns_none w _ p) eq_refl)
    as (evs & r & Hrun & _ & _ & Hout).
  rewrite Hrun. simpl. intros ->. exact Hout.
Qed.

Lemma call_returns_nothing_witness :
  let st := with_seaborn (imported obliging_world) in
  let pos := [VObj 1000; scenario_grid; VObj 1001; VObj 1002; VInt 7; VInt 0] in
  (invoke obliging_world pos [] st).2 = inr VNone ∧ VNone = VNone.
Proof.
  intros st pos. split.
  - vm_compute. reflexivity.
  - apply (call_returns_nothing obliging_world pos [] st VNone). vm_compute. reflexivity.
Defined.

(** ** The calls that return *)

Section Tally.

Context (w : World) (G : gmap string value) (a : string).

Lemma tallies_bind {A B} (k1 k2 k : nat) (V : A -> Prop) (V' : B -> Prop)
    (m : M A) (f : A -> M B) :
  tallies G a k1 V m -> (∀ x, V x -> tallies G a k2 V' (f x)) -> (k1 + k2)%nat = k ->
  tallies G a k V' (m ≫= f).
Proof.
  intros Hm Hf <- lg. destruct (Hm lg) as (evs & r & Hrun & Hr).
  unfold mbind, M_bind. rewrite Hrun. destruct r as [e|x].
  - exists evs, (inl e). split; [reflexivity | exact I].
  - destruct Hr as [Hn Hv]. destruct (Hf x Hv (lg ++ evs)) as (evs' & r' & Hrun' & Hr').
    exists (evs ++ evs'), r'. rewrite Hrun', app_assoc. split; [reflexivity|].
    destruct r' as [e'|y]; [exact I|]. destruct Hr' as [Hn' Hv'].
    split; [rewrite reads_app; lia | exact Hv'].
Qed.

Lemma tallies_quiet {A} (E : exn -> Prop) (V : A -> Prop) (m : M A) :
  spec G (untouched [a]) E V m -> tallies G a 0 V m.
Proof.
  intros Hm lg. destruct (Hm lg) as (evs & r & Hrun & Hok & _ & Hout).
  exists evs, r. split; [exact Hrun|]. destruct r as [e|x]; [exact I|].
  split; [|exact Hout]. eapply untouched_reads; [apply list_elem_of_here | exact Hok].
Qed.

Lemma tallies_lib_quiet (o : op) :
  (∀ r, reads_attr a (o, r) = false) -> tallies G a 0 (λ _, True) (lib w o).
Proof.
  intros Ho. apply (tallies_quiet (λ _, True)). apply spec_lib_any.
  intros r. unfold untouched, no_read. simpl. by rewrite Ho.
Qed.

Lemma tallies_lib_read (o : op) :
  (∀ r, reads_attr a (o, r) = true) -> tallies G a 1 (λ _, True) (lib w o).
Proof.
  intros Ho lg. unfold lib. simpl.
  destruct (answer w lg o) as [x|v]; eexists [_], _; (split; [reflexivity|]); [exact I|].
  split; [|exact I]. unfold reads. rewrite filter_cons_True by apply Ho. reflexivity.
Qed.

Lemma tallies_load (n : string) : tallies G a 0 (λ _, True) (load_name w n).
Proof. apply (tallies_quiet (λ _, True)). apply spec_load_any. trivial. Qed.

Lemma tallies_unpack2 (v : value) : tallies G a 0 (λ _, True) (unpack2 w v).
Proof.
  apply (tallies_quiet (λ _, True)). apply spec_unpack2.
  intros r. unfold untouched, no_read. simpl. reflexivity.
Qed.

Lemma tallies_ret {A} (V : A -> Prop) (x : A) : V x -> tallies G a 0 V (mret x).
Proof. intros Hx lg. exists [], (inr x). rewrite app_nil_r. by repeat split. Qed.

Lemma tallies_for_each (k : nat) (items : list value) (body : value -> M unit) :
  (∀ i, tallies G a k (λ _, True) (body i)) ->
  tallies G a (length items * k) (λ _, True) (for_each items body).
Proof.
  intros Hbody. induction items as [|i items IH]; simpl.
  - apply tallies_ret. exact I.
  - eapply tallies_bind; [apply Hbody | intros _ _; exact IH | reflexivity].
Qed.

End Tally.

Ltac tally_op :=
  first
    [ apply tallies_lib_quiet; intros ?; reflexivity
    | apply tallies_lib_read; intros ?; reflexivity
    | apply tallies_load
    | apply tallies_unpack2
    | apply tallies_ret; exact I ].

Ltac tally_steps :=
  lazymatch goal with
  | |- tallies _ _ _ _ (for_each _ _ ≫= _) => idtac
  | |- tallies _ _ _ _ (lineplot _ _ _ _ _ _ ≫= _) => idtac
  | |- tallies _ _ _ _ (unpack2 _ _ ≫= _) =>
      eapply tallies_bind; [tally_op | intros [? ?] _; tally_steps | reflexivity]
  | |- tallies _ _ _ _ (_ ≫= _) =>
      eapply tallies_bind; [tally_op | intros ? _; tally_steps | reflexivity]
  | |- _ => tally_op
  end.

Section Returning.

Context (w : World) (G : gmap string value).

Local Abbreviation anything := (λ _, True).

Lemma repetition_tallies (a : string) (p : Params) (splitter i : value) :
  a ∈ ["split"; "fit"; "append"; "concat"; "lineplot"] ->
  tallies G a (if String.eqb a "lineplot" || String.eqb a "concat" then 0 else 1) anything
    (repetition w p splitter i).
Proof.
  intros Ha. unfold repetition, getattr, getitem, call.
  rewrite !elem_of_cons, elem_of_nil in Ha. destruct Ha as [->|[->|[->|[->|[->|[]]]]]].
  all: tally_steps.
Qed.

Lemma lineplot_tallies (a : string) (df_cvres ax : value) (x hue : string) (k : Z) :
  a ∈ ["split"; "fit"; "append"; "concat"; "lineplot"] ->
  tallies G a (if String.eqb a "lineplot" then 1 else 0) anything
    (lineplot w df_cvres ax x hue k).
Proof.
  intros Ha. unfold lineplot, getattr, getitem, call.
  rewrite !elem_of_cons, elem_of_nil in Ha. destruct Ha as [->|[->|[->|[->|[->|[]]]]]].
  all: tally_steps.
Qed.

Lemma visualizer_tallies (a : string) (df_cvres : value) :
  a ∈ stage_attrs ->
  tallies G a (if String.eqb a "lineplot" then 2 else 0) anything (visualizer w df_cvres).
Proof.
  intros Ha.
  assert (Hplot := λ df ax x hue k, lineplot_tallies a df ax x hue k Ha).
  unfold visualizer, getattr, call. unfold stage_attrs in Ha.
  rewrite !elem_of_cons, elem_of_nil in Ha. destruct Ha as [->|[->|[->|[->|[->|[]]]]]].
  all: tally_steps.
  all: eapply tallies_bind; [apply Hplot | intros ? _ | reflexivity].
  all: eapply tallies_bind; [apply Hplot | intros ? _ | reflexivity].
  all: apply tallies_ret; exact I.
Qed.

Lemma loop_tallies (a : string) (p : Params) (splitter : value) (items : list value) :
  a ∈ stage_attrs ->
  tallies G a (if String.eqb a "lineplot" || String.eqb a "concat" then 0 else length items)
    anything (for_each items (repetition w p splitter)).
Proof.
  intros Ha lg.
  destruct (tallies_for_each G a _ items _
              (λ i, repetition_tallies a p splitter i Ha) lg) as (evs & r & Hrun & Hr).
  exists evs, r. split; [exact Hrun|]. destruct r as [e|x]; [exact I|].
  destruct Hr as [-> _]. split; [|exact I].
  destruct (String.eqb a "lineplot" || String.eqb a "concat"); lia.
Qed.

(** The tallies of the five attributes, taken together. *)
Lemma tallied_of_tallies {A} (k : string -> nat) (m : M A) :
  (∀ a, a ∈ stage_attrs -> tallies G a (k a) anything m) ->
  tallied G (k <$> stage_attrs) m.
Proof.
  intros H lg. destruct (H "split" ltac:(compute_done) lg) as (evs & r & Hrun & Hr).
  exists evs, r. split; [exact Hrun|]. destruct r as [e|x]; [exact I|].
  unfold tally. apply Forall_fmap_ext_1, Forall_forall. intros a Ha.
  destruct (H a Ha lg) as (evs' & r' & Hrun' & Hr').
  rewrite Hrun in Hrun'. injection Hrun' as Hlog <-.
  apply app_inv_head in Hlog. subst evs'. apply Hr'.
Qed.

Lemma loop_tallied (p : Params) (splitter : value) (items : list value) :
  tallied G [length items; length items; length items; 0; 0]%nat
    (for_each items (repetition w p splitter)).
Proof.
  apply (tallied_of_tallies
           (λ a, if String.eqb a "lineplot" || String.eqb a "concat" then 0%nat
                 else length items)).
  intros a Ha. apply loop_tallies, Ha.
Qed.

Lemma visualizer_tallied (df_cvres : value) :
  tallied G [0; 0; 0; 0; 2]%nat (visualizer w df_cvres).
Proof.
  apply (tallied_of_tallies (λ a, if String.eqb a "lineplot" then 2%nat else 0%nat)).
  intros a Ha. apply visualizer_tallies, Ha.
Qed.

(** A stage with a tally, run from a state in its namespace. *)
Lemma wp_tallied {A} (ks : list nat) (m : M A) (Q : State -> exn + A -> Prop) (st : State) :
  tallied G ks m -> globals st = G ->
  (∀ evs e, Q {| globals := globals st; log := log st ++ evs |} (inl e)) ->
  (∀ evs x, tally evs = ks -> Q {| globals := globals st; log := log st ++ evs |} (inr x)) ->
  wp m Q st.
Proof.
  intros Hm HG He Hx. destruct st as [g lg]. simpl in *. subst g.
  destruct (Hm lg) as (evs & r & Hrun & Hr).
  unfold wp. rewrite Hrun. simpl. destruct r as [e|x]; [apply He | apply Hx, Hr].
Qed.

(** The stages of a call that returns. *)
Lemma plot_in_three_stages (p : Params) (n : Z) (lg : list event) :
  lookup_name w G "range" = Some (VBuiltin "range") -> n_fold p = VInt n ->
  wp (plot_performance_vs_hyperparams w p)
    (λ st' r, ∀ v, r = inr v ->
       ∃ evs, log st' = lg ++ evs ∧ in_three_stages (Z.to_nat n) evs)
    {| globals := G; log := lg |}.
Proof.
  intros Hrange Hfold.
  unfold plot_performance_vs_hyperparams, call, getitem. rewrite Hfold.
  apply wp_bind, wp_load. wp_simpl.
  destruct (lookup_name w G "StratifiedKFold") as [skf|]; [|discriminate].
  apply wp_bind, wp_lib; [intros x; discriminate | intros splitter; wp_simpl].
  apply wp_bind, wp_load. wp_simpl.
  destruct (lookup_name w G "MNTSLogger") as [mnts|]; [|discriminate].
  apply wp_bind, wp_lib; [intros x; discriminate | intros logger; wp_simpl].
  apply wp_bind, wp_load. wp_simpl. rewrite Hrange.
  apply wp_bind, wp_answer. unfold answer. cbn [native builtin_range]. wp_simpl.
  apply wp_bind, wp_iterate. unfold answer. cbn [native as_sequence]. wp_simpl.
  apply wp_bind.
  eapply wp_tallied; [apply loop_tallied | reflexivity | intros; discriminate|].
  intros loop [] Hloop. cbn [globals log].
  apply wp_bind. unfold aggregator, getattr, call.
  apply wp_bind, wp_load. wp_simpl.
  destruct (lookup_name w G "pd") as [pdv|]; [|discriminate].
  apply wp_bind, wp_lib; [intros x; discriminate | intros concat; wp_simpl].
  apply wp_bind, wp_lib; [intros x; discriminate | intros df; wp_simpl].
  apply wp_bind, wp_lib; [intros x; discriminate | intros reset_index; wp_simpl].
  apply wp_lib; [intros x; discriminate | intros df'; wp_simpl].
  eapply wp_tallied; [apply visualizer_tallied | reflexivity | intros; discriminate|].
  intros vis v Hvis. cbn [globals log]. intros _ _.
  eexists. split; [rewrite <- !app_assoc; reflexivity|].
  exists ([(Call skf [] [("n_splits", n_split p); ("shuffle", VBool true)], inr splitter);
           (GetItem mnts (VStr "cv_grid_search_plot"), inr logger);
           (Call (VBuiltin "range") [VInt n] [], inr (VRange n));
           (Iterate (VRange n), inr (VList (range_items n)))] ++ loop),
         vis, pdv, concat, df, reset_index, df'.
  split; [rewrite <- !app_assoc; reflexivity|]. split; [|exact Hvis].
  unfold tally, stage_attrs in *. cbn [fmap list_fmap] in *.
  injection Hloop as L1 L2 L3 L4 L5. rewrite !reads_app, L1, L2, L3, L4, L5.
  unfold range_items. rewrite length_fmap, length_seq. reflexivity.
Qed.

End Returning.

Section NeedsDfCurves.

Context (w : World) (G : gmap string value).

Local Abbreviation anything := (λ _, True).

Hypothesis df_curves_unbound : lookup_name w G "df_curves" = None.

(** With [df_curves] unbound, whatever else is bound, a repetition does
    not return. *)
Lemma repetition_never_returns (p : Params) (splitter i : value) :
  spec G any_event anything (λ _, False) (repetition w p splitter i).
Proof.
  unfold repetition, getattr, getitem, call.
  do 27 (eapply spec_bind; [spec_op | intros ? _]).
  eapply spec_bind with (V := λ _, False); [|intros _ []].
  apply spec_load_unbound; [exact df_curves_unbound | exact I].
Qed.

Lemma plot_needs_df_curves (p : Params) (n : Z) :
  lookup_name w G "range" = Some (VBuiltin "range") -> n_fold p = VInt n -> 1 <= n ->
  spec G any_event anything (λ _, False) (plot_performance_vs_hyperparams w p).
Proof.
  intros Hrange Hfold Hn.
  unfold plot_performance_vs_hyperparams, call. rewrite Hfold.
  do 4 (eapply spec_bind; [spec_op | intros ? _]).
  eapply spec_bind with (V := λ v, v = VBuiltin "range").
  { apply spec_load. rewrite Hrange. reflexivity. }
  intros ? ->.
  eapply spec_bind with (V := λ v, v = VRange n).
  { apply spec_lib; [intros ?; reflexivity|]. intros lg v Hv. injection Hv as <-. reflexivity. }
  intros ? ->.
  eapply spec_bind with (V := λ items, items = range_items n).
  { apply spec_iterate; [intros ?; reflexivity|]. intros lg items Hi. injection Hi as <-.
    reflexivity. }
  intros ? ->. destruct (range_items_first n Hn) as [rest ->].
  eapply spec_bind with (V := λ _, False); [|intros _ []].
  apply spec_for_each_stuck, repetition_never_returns.
Qed.

End NeedsDfCurves.

(** X12. A call that returns has found [sns] bound, and [df_curves] too
    when [n_fold >= 1], which the module's own namespace does not provide.
    It has run exactly [n_fold] repetitions (none when [n_fold] is not
    positive), and its events come stage after stage: first those up to the
    end of the loop, with [n_fold] reads each of [split], [fit] and
    [append] and none of [concat] or [lineplot]; then the four operations
    of the aggregator, all returning, of which [pd.concat] was called with
    the empty list (so the libraries must let [concat] accept it); then
    those of the visualizer, with two reads of [lineplot].  In all,
    [n_fold] reads each of [split], [fit] and [append], one of [concat] and
    two of [lineplot]. *)
Theorem returning_call_ran_every_repetition (w : World) (p : Params) (n : Z) (st : State)
    (v : value) :
  lookup_name w (globals st) "range" = Some (VBuiltin "range") -> n_fold p = VInt n ->
  (plot_performance_vs_hyperparams w p st).2 = inr v ->
  is_Some (lookup_name w (globals st) "sns")
  ∧ (1 <= n -> is_Some (lookup_name w (globals st) "df_curves"))
  ∧ ∃ evs,
      log (plot_performance_vs_hyperparams w p st).1 = log st ++ evs
      ∧ in_three_stages (Z.to_nat n) evs
      ∧ reads "split" evs = Z.to_nat n ∧ reads "fit" evs = Z.to_nat n
      ∧ reads "append" evs = Z.to_nat n
      ∧ reads "concat" evs = 1%nat ∧ reads "lineplot" evs = 2%nat.
Proof.
  intros Hrange Hfold Hret.
  assert (Hnever : ∀ ok E, spec (globals st) ok E (λ _ : value, False)
                             (plot_performance_vs_hyperparams w p) -> False).
  { intros ok E Hspec.
    destruct (spec_at _ _ _ _ _ st Hspec eq_refl) as (evs & r & Hrun & _ & _ & Hout).
    rewrite Hrun in Hret. simpl in Hret. subst r. exact Hout. }
  split.
  { destruct (lookup_name w (globals st) "sns") as [sns|] eqn:Hsns; [eauto|].
    exfalso. eapply Hnever. apply plot_never_returns, Hsns. }
  split.
  { intros Hn. destruct (lookup_name w (globals st) "df_curves") as [d|] eqn:Hdf; [eauto|].
    exfalso. eapply Hnever. eapply plot_needs_df_curves; eassumption. }
  destruct st as [G lg]. simpl in Hrange.
  pose proof (plot_in_three_stages w G p n lg Hrange Hfold) as Hwp.
  unfold wp in Hwp. destruct (Hwp v Hret) as (evs & Hlog & Hstages).
  exists evs. split; [exact Hlog|]. split; [exact Hstages|].
  destruct Hstages as (loop & vis & pdv & concat & df & ri & df' & -> & Hloop & Hvis).
  unfold tally in Hloop, Hvis. simpl in Hloop, Hvis.
  injection Hloop as L1 L2 L3 L4 L5. injection Hvis as V1 V2 V3 V4 V5.
  rewrite !reads_app, L1, L2, L3, L4, L5, V1, V2, V3, V4, V5.
  repeat split; vm_compute reads; lia.
Qed.

Lemma returning_call_ran_every_repetition_witness :
  let st := with_df_curves (with_seaborn (imported obliging_world)) in
  let run := plot_performance_vs_hyperparams obliging_world (scenario 3) st in
  (lookup_name obliging_world (globals st) "range" = Some (VBuiltin "range")
   ∧ n_fold (scenario 3) = VInt 3 ∧ run.2 = inr VNone)
  ∧ is_Some (lookup_name obliging_world (globals st) "sns")
  ∧ (1 <= 3 -> is_Some (lookup_name obliging_world (globals st) "df_curves"))
  ∧ ∃ evs,
      log run.1 = log st ++ evs
      ∧ in_three_stages (Z.to_nat 3) evs
      ∧ reads "split" evs = Z.to_nat 3 ∧ reads "fit" evs = Z.to_nat 3
      ∧ reads "append" evs = Z.to_nat 3
      ∧ reads "concat" evs = 1%nat ∧ reads "lineplot" evs = 2%nat.
Proof.
  intros st run. split.
  - split; [vm_compute; reflexivity|]. split; [reflexivity | vm_compute; reflexivity].
  - apply (returning_call_ran_every_repetition obliging_world (scenario 3) 3 st VNone);
      [vm_compute; reflexivity | reflexivity | vm_compute; reflexivity].
Defined.
